(** * az-rpms: scheduling decisions and the power-action state machine

    A shallow embedding of [functions/helpers.py], [functions/function_app.py]
    and [functions/azure_helpers/util.py], and the properties of the
    schedule evaluator, the deferred-check loop, the maintenance-window
    rules and the alert matcher that follow from the code.

    Conventions.
    - Python exceptions are values of [exn]; a computation that can raise
      has type [result A].
    - Strings are byte strings.  [casefold] is lower-casing of the ASCII
      letters: Azure resource ids, tag values and cron texts are ASCII.
    - Calls into the cloud SDK are effects: a handler returns the list of
      calls it made, in order, and reads their answers from an environment
      record. *)

From Stdlib Require Import ZArith String Ascii List Lia Bool.
From stdpp Require Import base option list strings gmap pretty.

Open Scope string_scope.
Set Warnings "-register-all".

(** ** Python values and exceptions *)

Module Py.

Inductive exn : Type :=
| TypeError
| IndexError
| ValueError
| KeyError
| AttributeError
| AssertionError
| UnparsableCondition
| HttpResponseError
| PowerMgmtRetryableError.

Inductive result (A : Type) : Type :=
| Ok (a : A)
| Raise (e : exn).
Arguments Ok {A} a.
Arguments Raise {A} e.

#[global] Instance exn_eq_dec : EqDecision exn.
Proof. solve_decision. Defined.

#[global] Instance result_ret : MRet result := fun A a => Ok a.
#[global] Instance result_bind : MBind result :=
  fun A B f m => match m with Ok a => f a | Raise e => Raise e end.

#[global] Instance result_fmap : FMap result :=
  fun A B f m => match m with Ok a => Ok (f a) | Raise e => Raise e end.

(** [try: m except e => h] *)
Definition catch {A} (m : result A) (e : exn) (h : result A) : result A :=
  match m with
  | Raise e' => if decide (e' = e) then h else Raise e'
  | Ok a => Ok a
  end.

Definition is_ok {A} (m : result A) : bool :=
  match m with Ok _ => true | Raise _ => false end.

(** *** Strings *)

Definition lower (c : ascii) : ascii :=
  let n := nat_of_ascii c in
  if (65 <=? n)%nat && (n <=? 90)%nat then ascii_of_nat (n + 32) else c.

(** [s.casefold()] *)
Fixpoint casefold (s : string) : string :=
  match s with
  | EmptyString => EmptyString
  | String c r => String (lower c) (casefold r)
  end.

(** [s.startswith(p)] *)
Definition startswith (s p : string) : bool := String.prefix p s.

(** [s.split(sep)] for a one-character separator: never the empty list. *)
Fixpoint split (sep : ascii) (s : string) : list string :=
  match s with
  | EmptyString => [EmptyString]
  | String c r =>
      if Ascii.eqb c sep then EmptyString :: split sep r
      else match split sep r with
           | h :: t => String c h :: t
           | [] => [String c EmptyString]
           end
  end.

(** [sep.join(l)] *)
Definition join (sep : string) (l : list string) : string :=
  String.concat sep l.

(** [l[i]] for [i >= 0] *)
Definition index {A} (l : list A) (i : nat) : result A :=
  match l !! i with
  | Some x => Ok x
  | None => Raise IndexError
  end.

(** [l[i:j]] for [0 <= i <= j] *)
Definition slice {A} (l : list A) (i j : nat) : list A :=
  take (j - i) (drop i l).

(** [c in s] for a character, and [p in s] for a string *)
Fixpoint has_char (c : ascii) (s : string) : bool :=
  match s with
  | EmptyString => false
  | String c' r => Ascii.eqb c' c || has_char c r
  end.

Fixpoint contains (p s : string) : bool :=
  String.prefix p s
  || match s with
     | EmptyString => false
     | String _ r => contains p r
     end.

(** the characters of a string, as Python iterates them *)
Fixpoint chars (s : string) : list string :=
  match s with
  | EmptyString => []
  | String c r => String c EmptyString :: chars r
  end.

Definition is_space (c : ascii) : bool :=
  let n := nat_of_ascii c in
  ((9 <=? n)%nat && (n <=? 13)%nat) || (n =? 32)%nat.

Definition digit_val (c : ascii) : option Z :=
  let n := nat_of_ascii c in
  if (48 <=? n)%nat && (n <=? 57)%nat then Some (Z.of_nat (n - 48)) else None.

Fixpoint lstrip (s : string) : string :=
  match s with
  | String c r => if is_space c then lstrip r else s
  | EmptyString => EmptyString
  end.

(** digits, then optional trailing white space, read left to right *)
Fixpoint digits (acc : Z) (seen : bool) (s : string) : option Z :=
  match s with
  | EmptyString => if seen then Some acc else None
  | String c r =>
      match digit_val c with
      | Some d => digits (10 * acc + d) true r
      | None =>
          if seen && is_space c && String.eqb (lstrip r) EmptyString
          then Some acc else None
      end
  end.

(** [int(s)]: white space, an optional sign, decimal digits, white space.
    The digit separator [_] of Python literals is not modelled: no string
    that [TIME_SCHEDULE_PATTERN] admits holds one. *)
Definition int (s : string) : result Z :=
  let body :=
    match lstrip s with
    | String "-" r => Z.opp <$> digits 0 false r
    | String "+" r => digits 0 false r
    | t => digits 0 false t
    end in
  match body with
  | Some z => Ok z
  | None => Raise ValueError
  end.

(** [str(n)] for an integer *)
Definition str (n : Z) : string := pretty n.

End Py.

Import Py.

(** ** azure_helpers/util.py *)

Module Util.

(** [resource_id.split("/")[4]] *)
Definition get_resource_group (resource_id : string) : result string :=
  index (split "/" resource_id) 4.

(** [resource_id.split("/")[2]] *)
Definition get_sub_id (resource_id : string) : result string :=
  index (split "/" resource_id) 2.

(** [resource_id.split("/")[-1]]: [split] never returns the empty list. *)
Definition get_name (resource_id : string) : string :=
  List.last (split "/" resource_id) EmptyString.

(** The text before and after the last ["/"] of [s], if there is one. *)
Fixpoint rsplit_slash (s : string) : option (string * string) :=
  match s with
  | EmptyString => None
  | String c r =>
      match rsplit_slash r with
      | Some (g, t) => Some (String c g, t)
      | None => if Ascii.eqb c "/" then Some (EmptyString, r) else None
      end
  end.

Definition newline : ascii := ascii_of_nat 10.

(** [re.search(r"/providers/(.+?)/[^/]+$", resource_id)], group 1.

    The tail [/[^/]+$] can only start at the last slash of the string, so at
    a given start the lazy group is the text between ["/providers/"] and
    the last slash; it has to be non-empty and free of line breaks ([.]),
    and at least one character has to follow the last slash.  The search
    takes the leftmost start at which this holds. *)
Definition providers_group (s : string) : option string :=
  if String.prefix "/providers/" s then
    match rsplit_slash (String.substring 11 (String.length s - 11) s) with
    | Some (g, t) =>
        if negb (String.eqb g EmptyString) && negb (has_char newline g)
           && negb (String.eqb t EmptyString)
        then Some g else None
    | None => None
    end
  else None.

Fixpoint search_providers (s : string) : option string :=
  match providers_group s with
  | Some g => Some g
  | None =>
      match s with
      | EmptyString => None
      | String _ r => search_providers r
      end
  end.

(** [None] when the id has no provider part. *)
Definition get_resource_type (resource_id : string) : option string :=
  casefold <$> search_providers resource_id.

(** [ResourcePowerAction]; [created_at] is a time stamp. *)
Record ResourcePowerAction := {
  pa_id : string;
  pa_sub_type : option string;
  pa_action : string;
  pa_created_at : Z;
  pa_alert_ids : list string;
  pa_attempt_num : Z;
}.

(** [DeferredWaitPowerActionCheck(ResourcePowerAction)]; the fields of the
    parent class come first.  [tag_text] is [Optional[str]]. *)
Record DeferredWaitPowerActionCheck := {
  dc_id : string;
  dc_sub_type : option string;
  dc_action : string;
  dc_created_at : Z;
  dc_alert_ids : list string;
  dc_attempt_num : Z;
  dc_tag_text : option string;
  dc_continuation_token : string;
  dc_wait_retries : Z;
}.

(** [AzureResource.create_power_action]; [attempt_num] defaults to 1. *)
Definition create_power_action (resource_id action : string)
    (alert_ids : list string) (sub_type : option string) (now : Z)
  : ResourcePowerAction :=
  {| pa_id := resource_id; pa_sub_type := sub_type; pa_action := action;
     pa_created_at := now; pa_alert_ids := alert_ids; pa_attempt_num := 1 |}.

End Util.

Import Util.

(** ** JSON values, as [json.loads] and pydantic hand them to the code *)

Module Json.

(** A [JDict] lists the items of a Python dict in insertion order; a lookup
    takes the first binding of a key.  Numbers are integers here (a float
    behaves like an integer in every operation used below). *)
Inductive json : Type :=
| JNull
| JBool (b : bool)
| JNum (n : Z)
| JStr (s : string)
| JList (l : list json)
| JDict (d : list (string * json)).

(** [bool(v)] *)
Definition truthy (v : json) : bool :=
  match v with
  | JNull => false
  | JBool b => b
  | JNum n => negb (n =? 0)%Z
  | JStr s => negb (String.eqb s EmptyString)
  | JList l => match l with [] => false | _ => true end
  | JDict d => match d with [] => false | _ => true end
  end.

(** [d.get(k)] as an option *)
Fixpoint dict_get {A} (k : string) (d : list (string * A)) : option A :=
  match d with
  | [] => None
  | (k', v) :: r => if String.eqb k' k then Some v else dict_get k r
  end.

(** [d.keys()] *)
Definition dict_keys {A} (d : list (string * A)) : list string :=
  remove_dups (d.*1).

(** [k in v] for a string [k]: key of a dict, element of a list, substring
    of a string; [None], booleans and numbers are not containers. *)
Definition py_in (k : string) (v : json) : result bool :=
  match v with
  | JDict d => Ok (bool_decide (is_Some (dict_get k d)))
  | JList l =>
      Ok (existsb (fun x => match x with JStr s => String.eqb s k | _ => false end) l)
  | JStr s => Ok (contains k s)
  | JNull | JBool _ | JNum _ => Raise TypeError
  end.

(** [v[k]] for a string [k]; the [KeyError] is never reached after [k in v]. *)
Definition getitem (v : json) (k : string) : result json :=
  match v with
  | JDict d =>
      match dict_get k d with
      | Some x => Ok x
      | None => Raise KeyError
      end
  | _ => Raise TypeError
  end.

(** [iter(v)] *)
Definition py_iter (v : json) : result (list json) :=
  match v with
  | JList l => Ok l
  | JDict d => Ok (JStr <$> dict_keys d)
  | JStr s => Ok (JStr <$> chars s)
  | JNull | JBool _ | JNum _ => Raise TypeError
  end.

(** Nesting depth, which bounds the recursion of the condition evaluator. *)
Fixpoint depth (v : json) : nat :=
  match v with
  | JList l => S (foldr (fun x n => Nat.max (depth x) n) 0%nat l)
  | JDict d => S (foldr (fun kv n => Nat.max (depth kv.2) n) 0%nat d)
  | _ => 0%nat
  end.

End Json.

Import Json.

(** ** helpers.py: resource ids and the alert condition matcher *)

Module Helpers.

(** [ResourceGraphItem]: [properties] is a [Dict[str, Any]]. *)
Record ResourceGraphItem := {
  rgi_id : string;
  rgi_name : string;
  rgi_type : string;
  rgi_location : string;
  rgi_properties : list (string * json);
}.

Record ConditionEvalCriteria := {
  resource_group : option string;
  resource_type : option string;
  resource_id : option string;
}.

(** The dict that [decode_resource_id] returns, with its four keys. *)
Definition decode_resource_id (resource_id : string)
  : result (gmap string string) :=
  let split := split "/" resource_id in
  sub_id ← index split 2;
  rg ← index split 4;
  let type := join "/" (slice split 6 7) in
  name ← index split 8;
  mret (<["sub_id" := sub_id]>
        (<["resource_group" := rg]>
         (<["type" := type]>
          (<["name" := name]> ∅)))).

(** One branch of [eval_dict]:
    [criteria.f.casefold() == equals if criteria.f else False] *)
Definition criteria_equals (f : option string) (equals : string) : bool :=
  match f with
  | Some v =>
      if negb (String.eqb v EmptyString)
      then String.eqb (casefold v) equals else false
  | None => false
  end.

(** [eval_dict], the leaf of a condition tree *)
Definition eval_dict (expr : list (string * json))
    (criteria : ConditionEvalCriteria) : result bool :=
  let field := default JNull (dict_get "field" expr) in
  let equals := default JNull (dict_get "equals" expr) in
  if negb (length (dict_keys expr) =? 2)%nat
     || negb (truthy field) || negb (truthy equals)
  then Raise UnparsableCondition
  else
    equals ← match equals with
             | JStr s => Ok (casefold s)
             | _ => Raise AttributeError
             end;
    mret (match field with
          | JStr "resourceGroup" =>
              criteria_equals (resource_group criteria) equals
          | JStr "resourceId" =>
              criteria_equals (resource_id criteria) equals
          | JStr "resourceType" =>
              criteria_equals (resource_type criteria) equals
          | _ => false
          end).

(** [all(f(x) for x in items)] and [any(...)] over a generator: evaluation
    stops at the first deciding element, and at the first exception.  [None]
    is the recursion running out of fuel. *)
Fixpoint py_all (f : json → option (result bool)) (items : list json)
  : option (result bool) :=
  match items with
  | [] => Some (Ok true)
  | x :: r =>
      match f x with
      | Some (Ok true) => py_all f r
      | other => other
      end
  end.

Fixpoint py_any (f : json → option (result bool)) (items : list json)
  : option (result bool) :=
  match items with
  | [] => Some (Ok false)
  | x :: r =>
      match f x with
      | Some (Ok false) => py_any f r
      | other => other
      end
  end.

(** [evaluate_condition] with a bound on the recursion depth *)
Fixpoint evaluate_condition_fuel (fuel : nat) (expr : json)
    (criteria : ConditionEvalCriteria) : option (result bool) :=
  match fuel with
  | O => None
  | S fuel =>
      match expr with
      | JBool b => Some (Ok b)
      | _ =>
          match py_in "allOf" expr with
          | Raise e => Some (Raise e)
          | Ok true =>
              match getitem expr "allOf" ≫= py_iter with
              | Raise e => Some (Raise e)
              | Ok items =>
                  py_all (fun sub_expr =>
                            evaluate_condition_fuel fuel sub_expr criteria)
                         items
              end
          | Ok false =>
              match py_in "anyOf" expr with
              | Raise e => Some (Raise e)
              | Ok true =>
                  match getitem expr "anyOf" ≫= py_iter with
                  | Raise e => Some (Raise e)
                  | Ok items =>
                      py_any (fun sub_expr =>
                                evaluate_condition_fuel fuel sub_expr criteria)
                             items
                  end
              | Ok false =>
                  match expr with
                  | JDict d => Some (eval_dict d criteria)
                  | _ => Some (Raise UnparsableCondition)
                  end
              end
          end
      end
  end.

(** [evaluate_condition]: the fuel [depth expr + 2] is always enough
    ([evaluate_condition_fuel_enough] below), so the last branch is dead. *)
Definition evaluate_condition (expr : json) (criteria : ConditionEvalCriteria)
  : result bool :=
  match evaluate_condition_fuel (depth expr + 2) expr criteria with
  | Some r => r
  | None => Raise AssertionError
  end.

Section find_matching_alert_ids.

Variable resource_id : string.
Variable resource_type : option string.

Definition scope_matches (alert : ResourceGraphItem) : result bool :=
  scopes ← py_iter (default (JList []) (dict_get "scopes" (rgi_properties alert)));
  flags ← mapM (M := result)
            (fun scope =>
               match scope with
               | JStr scope => Ok (startswith (casefold resource_id) scope)
               | _ => Raise TypeError
               end) scopes;
  mret (existsb (fun b => b) flags).

Definition condition_matches (alert : ResourceGraphItem) : result bool :=
  match dict_get "condition" (rgi_properties alert) with
  | None | Some JNull => Ok true
  | Some expr =>
      catch
        (rg ← index (split "/" resource_id) 4;
         evaluate_condition expr
           (Build_ConditionEvalCriteria (Some rg) resource_type
                                        (Some resource_id)))
        UnparsableCondition
        (Ok false)
  end.

Fixpoint find_matching_alert_ids (all_alerts : list ResourceGraphItem)
  : result (list string) :=
  match all_alerts with
  | [] => Ok []
  | alert :: rest =>
      keep ← (sm ← scope_matches alert;
              if sm : bool then condition_matches alert else mret false);
      ids ← find_matching_alert_ids rest;
      mret (if keep : bool then rgi_id alert :: ids else ids)
  end.

(** The test of the comprehension for one alert, when neither part raises. *)
Definition alert_matches (alert : ResourceGraphItem) : bool :=
  match scope_matches alert with
  | Ok true =>
      match condition_matches alert with
      | Ok true => true
      | _ => false
      end
  | _ => false
  end.

End find_matching_alert_ids.

End Helpers.

Import Helpers.


(** ** helpers.py: weekday time grids *)

Module Schedule.

(** Regular expressions over characters, matched by derivatives. *)
Inductive regex : Type :=
| Void
| Eps
| Class (p : ascii → bool)
| Cat (r1 r2 : regex)
| Alt (r1 r2 : regex)
| Star (r : regex).

Fixpoint nullable (r : regex) : bool :=
  match r with
  | Void => false
  | Eps => true
  | Class _ => false
  | Cat r1 r2 => nullable r1 && nullable r2
  | Alt r1 r2 => nullable r1 || nullable r2
  | Star _ => true
  end.

Fixpoint deriv (c : ascii) (r : regex) : regex :=
  match r with
  | Void | Eps => Void
  | Class p => if p c then Eps else Void
  | Cat r1 r2 =>
      if nullable r1 then Alt (Cat (deriv c r1) r2) (deriv c r2)
      else Cat (deriv c r1) r2
  | Alt r1 r2 => Alt (deriv c r1) (deriv c r2)
  | Star r1 => Cat (deriv c r1) (Star r1)
  end.

(** [s] is in the language of [r] *)
Fixpoint matches (r : regex) (s : string) : bool :=
  match s with
  | EmptyString => nullable r
  | String c s' => matches (deriv c r) s'
  end.

Definition Chr (c : ascii) : regex := Class (Ascii.eqb c).
Definition OneOf (s : string) : regex := Class (fun c => has_char c s).
Definition Range (lo hi : ascii) : regex :=
  Class (fun c => (nat_of_ascii lo <=? nat_of_ascii c)%nat
                  && (nat_of_ascii c <=? nat_of_ascii hi)%nat).
Definition Opt (r : regex) : regex := Alt r Eps.
Fixpoint Rep (n : nat) (r : regex) : regex :=
  match n with
  | O => Eps
  | S n => Cat r (Rep n r)
  end.

(** [([\-\*]|0?[0-9]|1[0-9]|2[0-3])] *)
Definition HOUR : regex :=
  Alt (OneOf "-*")
      (Alt (Cat (Opt (Chr "0")) (Range "0" "9"))
           (Alt (Cat (Chr "1") (Range "0" "9"))
                (Cat (Chr "2") (Range "0" "3")))).

(** [(\:([0-5][05]))?] *)
Definition MINUTE : regex :=
  Opt (Cat (Chr ":") (Cat (Range "0" "5") (OneOf "05"))).

(** [TIME_SCHEDULE_PATTERN], without its anchors *)
Definition TIME_SCHEDULE_PATTERN : regex :=
  Cat (Rep 6 (Cat (Cat HOUR MINUTE) (OneOf ",/"))) (Cat HOUR MINUTE).

(** [re.match("^...$", s)] is not [None]: the pattern has to cover [s] from
    its start; [$] stands at the end of [s], or before a line break that
    ends [s]. *)
Definition re_match (r : regex) (s : string) : bool :=
  matches (Cat r (Opt (Chr newline))) s.

Definition is_valid_schedule_value (value : string) : bool :=
  re_match TIME_SCHEDULE_PATTERN value.

(** [convert_time_schedule_to_cron]; [current_day] is the weekday of the
    local date, Monday = 0, read from the clock by the code. *)
Definition convert_time_schedule_to_cron (schedule_string : string)
    (current_day : nat) : result (option string) :=
  if negb (re_match TIME_SCHEDULE_PATTERN schedule_string) then Ok None
  else
    let days := split "," schedule_string in
    day_time ← index days current_day;
    if String.eqb day_time "-" || String.eqb day_time "*" then Ok None
    else
      let parts := split ":" day_time in
      p0 ← index parts 0;
      hour ← int p0;
      minute ← (if (1 <? length parts)%nat
                 then p1 ← index parts 1; int p1
                 else Ok 0%Z);
      mret (Some (str minute +:+ " " +:+ str hour +:+ " * * "
                  +:+ str ((Z.of_nat current_day + 1) mod 7))).

(** *** Grids written with commas

    A slot as the README describes it: no action ([-] or [*]), or an hour
    with an optional leading zero and an optional minute in steps of five.
    [render] writes a slot and [render_grid] a week of them out. *)
Inductive slot : Type :=
| NoAction (star : bool)
| At (hour : nat) (pad : bool) (minute : option nat).

Definition slot_wf (s : slot) : Prop :=
  match s with
  | NoAction _ => True
  | At hour _ minute =>
      (hour < 24)%nat
      ∧ match minute with
        | Some m => (m < 60)%nat ∧ (m mod 5 = 0)%nat
        | None => True
        end
  end.

Definition two_digits (n : nat) : string :=
  if (n <? 10)%nat then "0" +:+ str (Z.of_nat n) else str (Z.of_nat n).

Definition render (s : slot) : string :=
  match s with
  | NoAction star => if star then "*" else "-"
  | At hour pad minute =>
      (if pad then two_digits hour else str (Z.of_nat hour))
      +:+ match minute with
          | Some m => ":" +:+ two_digits m
          | None => EmptyString
          end
  end.

Definition render_grid (week : list slot) : string :=
  join "," (render <$> week).

(** The cron expression that the claim C4 names for a slot on weekday
    [current_day]. *)
Definition slot_cron (s : slot) (current_day : nat) : option string :=
  match s with
  | NoAction _ => None
  | At hour _ minute =>
      Some (str (Z.of_nat (default 0%nat minute)) +:+ " "
            +:+ str (Z.of_nat hour) +:+ " * * "
            +:+ str ((Z.of_nat current_day + 1) mod 7))
  end.

(** Every well-formed slot. *)
Definition all_slots : list slot :=
  [NoAction true; NoAction false]
  ++ (hour ← seq 0 24;
      pad ← [false; true];
      minute ← None :: ((fun k => Some (5 * k)%nat) <$> seq 0 12);
      [At hour pad minute]).

(** The steps of [convert_time_schedule_to_cron] that read one slot. *)
Definition read_day_time (day_time : string) : result (option (Z * Z)) :=
  if String.eqb day_time "-" || String.eqb day_time "*" then Ok None
  else
    let parts := split ":" day_time in
    p0 ← index parts 0;
    hour ← int p0;
    minute ← (if (1 <? length parts)%nat
               then p1 ← index parts 1; int p1
               else Ok 0%Z);
    mret (Some (minute, hour)).

(** What is checked of each slot of [all_slots], by computation. *)
Definition slot_check (s : slot) : bool :=
  negb (has_char "," (render s))
  && matches (Cat HOUR MINUTE) (render s)
  && match read_day_time (render s), s with
     | Ok None, NoAction _ => true
     | Ok (Some (minute, hour)), At h _ m =>
         (minute =? Z.of_nat (default 0%nat m))%Z && (hour =? Z.of_nat h)%Z
     | _, _ => false
     end.

End Schedule.

Import Schedule.

(** ** helpers.py: the fire decision for one cron event *)

Module Cron.

(** An aware [datetime]: the instant in microseconds since the epoch, and
    the offset of its zone from UTC, in microseconds.  The wall clock of the
    value reads [timestamp + utcoffset]; two aware values compare by their
    instants. *)
Record datetime := {
  timestamp : Z;
  utcoffset : Z;
}.

(** What the code takes from [croniter], [datetime] and [pytz]. *)
Class TimeLibs := {
  (** [croniter(expr, start).get_prev(datetime)]; raises on a text that is
      not a cron expression *)
  croniter_get_prev : string → datetime → result datetime;
  (** [datetime.fromisoformat(text)]; a text without a zone is read in the
      zone of the host *)
  fromisoformat : string → result datetime;
  (** the offset of [pytz.timezone(name)] at an instant *)
  pytz_utcoffset : string → Z → Z;
}.

Definition minute_us : Z := 60000000.

(** [d.replace(second=0, microsecond=0)]: the wall clock is cut to the
    minute, the zone is kept. *)
Definition replace_second0 (d : datetime) : datetime :=
  let wall := (timestamp d + utcoffset d)%Z in
  {| timestamp := (wall - wall mod minute_us - utcoffset d)%Z;
     utcoffset := utcoffset d |}.

(** [d.astimezone(UTC)] *)
Definition astimezone_utc (d : datetime) : datetime :=
  {| timestamp := timestamp d; utcoffset := 0 |}.

(** [datetime(1970, 1, 1, tzinfo=timezone.utc)] *)
Definition epoch : datetime := {| timestamp := 0; utcoffset := 0 |}.

(** The text of the [debug] field of the log record. *)
Inductive debug_str : Type :=
| Actioning (prev : Z)
| NotActioning
| Overrides (prev_exception prev : Z)
| AfterNow (prev now : Z)
| HandledPrior (prev last : Z).

(** [bool(s)] for an optional string *)
Definition truthy_str (s : option string) : bool :=
  match s with
  | Some s => negb (String.eqb s EmptyString)
  | None => false
  end.

Section should_process_cron_event.

Context `{TimeLibs}.

(** [datetime.now(UTC)], read once at the start of the call *)
Variable now : Z.

Definition astimezone (timezone_str : string) (d : datetime) : datetime :=
  {| timestamp := timestamp d;
     utcoffset := pytz_utcoffset timezone_str (timestamp d) |}.

(** [now_zoned] and [now_local] *)
Definition now_zoned : datetime := {| timestamp := now; utcoffset := 0 |}.

Definition now_local (timezone_str : string) : datetime :=
  astimezone timezone_str now_zoned.

(** [last_invocation_zoned] *)
Definition last_invocation_zoned (last_invocation_utc : option string)
  : result datetime :=
  if truthy_str last_invocation_utc
  then d ← fromisoformat (default EmptyString last_invocation_utc);
       mret (astimezone_utc (replace_second0 d))
  else Ok epoch.

(** Returns [can_action_event] and the reason that is logged with it. *)
Definition should_process_cron_event (last_invocation_utc : option string)
    (cron_event : string) (cron_event_override : option string)
    (timezone_str : string) : result (bool * debug_str) :=
  let now_local := now_local timezone_str in
  last_invocation_zoned ← last_invocation_zoned last_invocation_utc;
  prev_cron_event_local ← croniter_get_prev cron_event now_local;
  let prev_cron_event_zoned := astimezone_utc prev_cron_event_local in
  let last := timestamp last_invocation_zoned in
  let prev := timestamp prev_cron_event_zoned in
  let can_action_event := (last <=? prev)%Z && (prev <=? now)%Z in
  let debug_str := if can_action_event then Actioning prev else NotActioning in
  if can_action_event && truthy_str cron_event_override then
    prev_cron_event_exception ←
      croniter_get_prev (default EmptyString cron_event_override) now_local;
    let prev_exception := timestamp (astimezone_utc prev_cron_event_exception) in
    if negb ((prev_exception <=? prev)%Z && (prev <=? now)%Z)
    then mret (false, Overrides prev_exception prev)
    else mret (can_action_event, debug_str)
  else if (now <? prev)%Z then mret (can_action_event, AfterNow prev now)
  else if (prev <? last)%Z then mret (can_action_event, HandledPrior prev last)
  else mret (can_action_event, debug_str).

End should_process_cron_event.

End Cron.

Import Cron.

(** ** A small stand-in for the time libraries

    Enough of [croniter], [fromisoformat] and [pytz] to run the fire
    decision on concrete inputs: daily cron expressions ["M H * * *"], time
    stamps ["YYYY-MM-DDTHH:MM:SS+HH:MM"], and New Zealand standard time. *)

Module TimeDouble.

Definition second_us : Z := 1000000.
Definition day_us : Z := 86400 * second_us.

(** Days from 1970-01-01 to the civil date [y-m-d]. *)
Definition days_from_civil (y m d : Z) : Z :=
  let y := if (m <=? 2)%Z then (y - 1)%Z else y in
  let era := (y / 400)%Z in
  let yoe := (y - era * 400)%Z in
  let mp := if (2 <? m)%Z then (m - 3)%Z else (m + 9)%Z in
  let doy := ((153 * mp + 2) / 5 + d - 1)%Z in
  let doe := (yoe * 365 + yoe / 4 - yoe / 100 + doy)%Z in
  (era * 146097 + doe - 719468)%Z.

Definition field (s : string) (start len : nat) : result Z :=
  int (String.substring start len s).

Definition parse_iso (s : string) : result datetime :=
  y ← field s 0 4; m ← field s 5 2; d ← field s 8 2;
  hh ← field s 11 2; mm ← field s 14 2; ss ← field s 17 2;
  offset ← (if (String.length s =? 25)%nat
             then oh ← field s 20 2; om ← field s 23 2;
                  let o := ((oh * 3600 + om * 60) * second_us)%Z in
                  mret (if String.eqb (String.substring 19 1 s) "-"
                        then (- o)%Z else o)
             else if (String.length s =? 19)%nat then Ok 0%Z
             else Raise ValueError);
  let wall := (days_from_civil y m d * day_us
               + (hh * 3600 + mm * 60 + ss) * second_us)%Z in
  mret {| timestamp := (wall - offset)%Z; utcoffset := offset |}.

(** The latest time of day [H:M] on the wall clock of [start], strictly
    before [start]. *)
Definition daily_get_prev (expr : string) (start : datetime)
  : result datetime :=
  match split " " expr with
  | [m; h; "*"; "*"; "*"] =>
      m ← int m; h ← int h;
      if (0 <=? m)%Z && (m <? 60)%Z && (0 <=? h)%Z && (h <? 24)%Z then
        let target := ((h * 3600 + m * 60) * second_us)%Z in
        let wall := (timestamp start + utcoffset start)%Z in
        let prev := (wall - 1 - (wall - 1 - target) mod day_us)%Z in
        mret {| timestamp := (prev - utcoffset start)%Z;
                utcoffset := utcoffset start |}
      else Raise ValueError
  | _ => Raise ValueError
  end.

Definition nz_utcoffset (name : string) (instant : Z) : Z :=
  if String.eqb name "Pacific/Auckland" then (12 * 3600 * second_us)%Z else 0%Z.

Definition libs : TimeLibs :=
  {| croniter_get_prev := daily_get_prev;
     fromisoformat := parse_iso;
     pytz_utcoffset := nz_utcoffset |}.

End TimeDouble.

(** ** function_app.py: the power-action state machine *)

Module FunctionApp.

Definition RESOURCE_TAGKEY_POWERMGMT_EXEMPT : string := "_POWERMGMT_EXEMPT_".
Definition RESOURCE_TAGKEY_POWERMGMT : string := "_POWERMGMT_STATUS_".
Definition RESOURCE_TAGVAL_START : string := "Auto-started".
Definition RESOURCE_TAGVAL_STOP : string := "Auto-stopped".
Definition RESOURCE_TAGVAL_STARTED_FOR_MAINTENANCE : string :=
  "In maintenance window (was stopped)".
Definition RESOURCE_TAGVAL_IN_MAINTENANCE_STOP_PENDING : string :=
  "In maintenance window (stop pending)".
Definition RESOURCE_TAGVAL_IN_MAINTENANCE : string := "In maintenance window".
Definition RESOURCE_TAGVAL_INFO_POST_MAINTENANCE : string :=
  "Maintenance window completed".
Definition RESOURCE_TAGVAL_STOP_POST_MAINTENANCE : string :=
  "Auto-stopped (post maintenance)".

Definition RESOURCE_TAGVALS_IN_MAINTENANCE_WINDOW : list string :=
  [ RESOURCE_TAGVAL_STARTED_FOR_MAINTENANCE;
    RESOURCE_TAGVAL_IN_MAINTENANCE_STOP_PENDING;
    RESOURCE_TAGVAL_IN_MAINTENANCE ].

Definition RESOURCE_ACTION_START : string := "start".
Definition RESOURCE_ACTION_START_PRE_UPDATES : string := "start_for_updates".
Definition RESOURCE_ACTION_STOP : string := "stop".
Definition RESOURCE_ACTION_STOP_POST_UPDATES : string := "stop_post_updates".

Definition DEFERRED_CHECK_MAX_RETRIES : Z := 10.

(** The four manager classes of [azure_helpers/managers]. *)
Inductive manager : Type :=
| AppGatewayManager
| VMManager
| PostgreSQLManager
| StorageAccountSFTPManager.

Definition create_manager_by_type (resource_type sub_type : option string)
  : result manager :=
  if bool_decide (resource_type = Some "microsoft.network/applicationgateways")
  then Ok AppGatewayManager
  else if bool_decide (resource_type = Some "microsoft.compute/virtualmachines")
  then Ok VMManager
  else if bool_decide (resource_type = Some "microsoft.dbforpostgresql/flexibleservers")
  then Ok PostgreSQLManager
  else if bool_decide (resource_type = Some "microsoft.storage/storageaccounts")
          && bool_decide (sub_type = Some "sftp")
  then Ok StorageAccountSFTPManager
  else Raise ValueError.

(** The opening of both handlers:
    [manager = create_manager_by_type(event.sub_id, event.resource_type,
    event.sub_type)], then [manager.get(event.resource_group, event.name)].
    The properties of the event are read off its id. *)
Definition resolve (id : string) (sub_type : option string)
  : result (manager * string) :=
  sub_id ← get_sub_id id;
  manager ← create_manager_by_type (get_resource_type id) sub_type;
  resource_group ← get_resource_group id;
  mret (manager, resource_group).

(** What [manager.get] returns: the id, the power state as the setter of
    [AzureResource] stored it, the tags, and the SFTP switch of a storage
    account. *)
Record AzureResource := {
  res_id : string;
  power_state : string;
  tags : gmap string string;
  is_sftp_enabled : bool;
}.

(** [x in l] for strings *)
Definition str_in (x : string) (l : list string) : bool :=
  existsb (String.eqb x) l.

(** [is_running], [in_stoppable_state] and [in_startable_state] of the
    resource class that belongs to the manager *)
Definition is_running (m : manager) (r : AzureResource) : bool :=
  match m with
  | StorageAccountSFTPManager => is_sftp_enabled r
  | _ => str_in (casefold (power_state r)) ["running"; "starting"]
  end.

Definition in_stoppable_state (m : manager) (r : AzureResource) : bool :=
  match m with
  | PostgreSQLManager => str_in (casefold (power_state r)) ["ready"]
  | _ => is_running m r
  end.

Definition in_startable_state (m : manager) (r : AzureResource) : bool :=
  match m with
  | PostgreSQLManager => str_in (casefold (power_state r)) ["stopped"]
  | _ => negb (is_running m r)
  end.

(** The calls a handler makes, in the order it makes them. *)
Inductive effect : Type :=
(** [alerts_manager.update_alert_processing_rule(target, rule, group, enabled)] *)
| UpdateAlertProcessingRule (target_id rule_name resource_group : string)
                            (enabled : bool)
(** [add_tags_with_retry(manager, resource, create_powermgmt_tags(text))] *)
| AddTags (resource_id : string) (text : option string)
(** [start_with_retry(manager, resource, reason=..., return_poller=True)] *)
| StartCall (resource_id reason : string)
(** [stop_with_retry(manager, resource, reason=..., return_poller=True)] *)
| StopCall (resource_id reason : string)
(** [manager.start(resource, continuation_token=..., timeout=1)] *)
| PollStart (resource_id token : string)
(** [manager.stop(resource, continuation_token=..., timeout=1)] *)
| PollStop (resource_id token : string)
(** [enqueue_deferred_check_action(check)] *)
| EnqueueDeferredCheck (check : DeferredWaitPowerActionCheck)
(** [log_resource_event(resource, "checkPowerMgmtStatus", result=..., ...)] *)
| LogCheckPowerMgmtStatus (result : string) (wait_retries : Z).

(** [suppress_alerts(enabled)], the partial application of both handlers *)
Definition suppress_alerts (resource : AzureResource) (resource_group : string)
    (enabled : bool) : effect :=
  UpdateAlertProcessingRule (res_id resource)
    ("AzAPR_" +:+ get_name (res_id resource) +:+ "_disableactiongroup")
    resource_group enabled.

(** [resource.tags.get(RESOURCE_TAGKEY_POWERMGMT, "")] *)
Definition powermgmt_status (resource : AzureResource) : string :=
  default EmptyString (tags resource !! RESOURCE_TAGKEY_POWERMGMT).

(** The answers of the provider during one call of
    [handle_powermgmt_event_with_deferred_wait]: the resource that
    [manager.get] returns and the continuation token of the start or stop
    call.  Calls to the provider are taken to return; an exception out of
    one is logged and raised again by the handler. *)
Record HandleEnv := {
  he_resource : AzureResource;
  he_continuation_token : string;
}.

Definition check_args (event : ResourcePowerAction) (tag_text token : string)
  : DeferredWaitPowerActionCheck :=
  {| dc_id := pa_id event;
     dc_sub_type := pa_sub_type event;
     dc_action := pa_action event;
     dc_created_at := pa_created_at event;
     dc_alert_ids := pa_alert_ids event;
     dc_attempt_num := pa_attempt_num event;
     dc_tag_text := Some tag_text;
     dc_continuation_token := token;
     dc_wait_retries := 0 |}.

Definition nonempty {A} (l : list A) : bool :=
  match l with [] => false | _ => true end.

Definition handle_powermgmt_event_with_deferred_wait (env : HandleEnv)
    (event : ResourcePowerAction) : result (list effect) :=
  let action := pa_action event in
  '(manager, resource_group) ← resolve (pa_id event) (pa_sub_type event);
  let resource := he_resource env in
  let token := he_continuation_token env in
  let rid := res_id resource in
  let suppress := if nonempty (pa_alert_ids event)
                  then [suppress_alerts resource resource_group true] else [] in
  if String.eqb action RESOURCE_ACTION_START then
    if in_startable_state manager resource then
      Ok [ StartCall rid "scheduled";
           EnqueueDeferredCheck (check_args event RESOURCE_TAGVAL_START token) ]
    else Ok []
  else if String.eqb action RESOURCE_ACTION_START_PRE_UPDATES then
    if in_startable_state manager resource then
      Ok [ StartCall rid "pre-maintenance window";
           EnqueueDeferredCheck
             (check_args event RESOURCE_TAGVAL_STARTED_FOR_MAINTENANCE token) ]
    else Ok [ AddTags rid (Some RESOURCE_TAGVAL_IN_MAINTENANCE) ]
  else if String.eqb action RESOURCE_ACTION_STOP then
    if in_stoppable_state manager resource then
      if negb (str_in (powermgmt_status resource)
                      RESOURCE_TAGVALS_IN_MAINTENANCE_WINDOW)
      then
        let resource_type := get_resource_type rid in
        if bool_decide
             (resource_type = Some "microsoft.dbforpostgresql/flexibleservers")
        then Ok (suppress ++
                 [ AddTags rid (Some RESOURCE_TAGVAL_STOP);
                   StopCall rid "scheduled";
                   EnqueueDeferredCheck (check_args event "" token) ])%list
        else if bool_decide
                  (resource_type = Some "microsoft.network/applicationgateways")
        then Ok (suppress ++
                 [ StopCall rid "scheduled";
                   EnqueueDeferredCheck (check_args event "" token) ])%list
        else Ok (suppress ++
                 [ StopCall rid "scheduled";
                   EnqueueDeferredCheck
                     (check_args event RESOURCE_TAGVAL_STOP token) ])%list
      else Ok (suppress ++
               [ AddTags rid (Some RESOURCE_TAGVAL_IN_MAINTENANCE_STOP_PENDING) ])%list
    else Ok suppress
  else if String.eqb action RESOURCE_ACTION_STOP_POST_UPDATES then
    if in_stoppable_state manager resource
       && str_in (powermgmt_status resource)
                 [ RESOURCE_TAGVAL_IN_MAINTENANCE_STOP_PENDING;
                   RESOURCE_TAGVAL_STARTED_FOR_MAINTENANCE ]
    then Ok (suppress ++
             [ StopCall rid "post-maintenance window";
               EnqueueDeferredCheck
                 (check_args event RESOURCE_TAGVAL_STOP_POST_MAINTENANCE token) ])%list
    else Ok (suppress ++
             [ AddTags rid (Some RESOURCE_TAGVAL_INFO_POST_MAINTENANCE) ])%list
  else Raise AssertionError.

(** The answers of the provider during one call of
    [check_powermgmt_status]: the resource, what [manager.stop] or
    [manager.start] returns for the continuation token (a status text, or an
    exception), and whether [add_tags_with_retry] returns [True]. *)
Record CheckEnv := {
  ce_resource : AzureResource;
  ce_poll : result string;
  ce_add_tags : bool;
}.

(** [event.wait_retries = event.wait_retries + 1] *)
Definition bump_wait_retries (event : DeferredWaitPowerActionCheck)
  : DeferredWaitPowerActionCheck :=
  {| dc_id := dc_id event;
     dc_sub_type := dc_sub_type event;
     dc_action := dc_action event;
     dc_created_at := dc_created_at event;
     dc_alert_ids := dc_alert_ids event;
     dc_attempt_num := dc_attempt_num event;
     dc_tag_text := dc_tag_text event;
     dc_continuation_token := dc_continuation_token event;
     dc_wait_retries := dc_wait_retries event + 1 |}.

(** The poll of the provider: [manager.stop] for the two stop actions,
    [manager.start] for the two start actions, [ValueError] otherwise. *)
Definition poll_call (action resource_id token : string) : result effect :=
  if String.eqb action RESOURCE_ACTION_STOP
     || String.eqb action RESOURCE_ACTION_STOP_POST_UPDATES
  then Ok (PollStop resource_id token)
  else if String.eqb action RESOURCE_ACTION_START
          || String.eqb action RESOURCE_ACTION_START_PRE_UPDATES
  then Ok (PollStart resource_id token)
  else Raise ValueError.

Definition check_powermgmt_status (env : CheckEnv)
    (event : DeferredWaitPowerActionCheck) : result (list effect) :=
  let action := dc_action event in
  '(manager, resource_group) ← resolve (dc_id event) (dc_sub_type event);
  let resource := ce_resource env in
  let rid := res_id resource in
  poll ← poll_call action rid (dc_continuation_token event);
  result ← catch (ce_poll env) HttpResponseError (Ok "failed");
  let tagging := String.eqb result "succeeded"
                 && negb (bool_decide (dc_tag_text event = Some EmptyString)) in
  let result := if tagging && negb (ce_add_tags env)
                then "inprogress" else result in
  let tag_effects := if tagging then [AddTags rid (dc_tag_text event)] else [] in
  if String.eqb result "succeeded" then
    let alerts := if String.eqb action RESOURCE_ACTION_START
                     && nonempty (dc_alert_ids event)
                  then [suppress_alerts resource resource_group false]
                  else [] in
    Ok ([poll] ++ tag_effects ++ alerts
        ++ [LogCheckPowerMgmtStatus result (dc_wait_retries event)])%list
  else if String.eqb result "inprogress" then
    let event := bump_wait_retries event in
    if (dc_wait_retries event <? DEFERRED_CHECK_MAX_RETRIES)%Z then
      Ok ([poll] ++ tag_effects ++ [EnqueueDeferredCheck event]
          ++ [LogCheckPowerMgmtStatus result (dc_wait_retries event)])%list
    else
      Ok ([poll] ++ tag_effects
          ++ [LogCheckPowerMgmtStatus "timeout" (dc_wait_retries event)])%list
  else
    Ok ([poll] ++ tag_effects
        ++ [LogCheckPowerMgmtStatus result (dc_wait_retries event)])%list.

(** *** The deferred-check queue

    A check that is enqueued is delivered to [check_powermgmt_status] again.
    [envs k] holds the provider's answers during the [k]-th evaluation that
    follows. *)

(** The check that a run of the handler put on the queue, if any. *)
Fixpoint enqueued (effects : list effect)
  : option DeferredWaitPowerActionCheck :=
  match effects with
  | [] => None
  | EnqueueDeferredCheck check :: _ => Some check
  | _ :: rest => enqueued rest
  end.

(** The [result] field of the log record of a run. *)
Fixpoint logged_result (effects : list effect) : option string :=
  match effects with
  | [] => None
  | LogCheckPowerMgmtStatus result _ :: _ => Some result
  | _ :: rest => logged_result rest
  end.

(** The effects of the [n]-th evaluation (counted from 1) of the chain of
    checks that starts with [event]; [None] when the chain has ended before,
    because an evaluation enqueued nothing or raised. *)
Fixpoint nth_evaluation (envs : nat → CheckEnv) (n : nat)
    (event : DeferredWaitPowerActionCheck) : option (list effect) :=
  match n with
  | O => None
  | S n' =>
      match check_powermgmt_status (envs O) event with
      | Raise _ => None
      | Ok effects =>
          match n' with
          | O => Some effects
          | S _ =>
              match enqueued effects with
              | Some event' =>
                  nth_evaluation (fun k => envs (S k)) n' event'
              | None => None
              end
          end
      end
  end.

(** *** Reading a trace *)

(** A stop call was issued. *)
Definition stop_issued (effects : list effect) : bool :=
  existsb (fun e => match e with StopCall _ _ => true | _ => false end)
          effects.

(** The status texts written as tags, in order. *)
Definition tags_written (effects : list effect) : list (option string) :=
  omap (fun e => match e with AddTags _ text => Some text | _ => None end)
       effects.

(** The alert processing rule was switched off again
    ([suppress_alerts(False)]), which re-enables the alerts. *)
Definition alerts_reenabled (effects : list effect) : bool :=
  existsb (fun e => match e with
                    | UpdateAlertProcessingRule _ _ _ false => true
                    | _ => false
                    end)
          effects.

(** The four actions that [check_powermgmt_status] can poll. *)
Definition POLL_ACTIONS : list string :=
  [ RESOURCE_ACTION_STOP; RESOURCE_ACTION_STOP_POST_UPDATES;
    RESOURCE_ACTION_START; RESOURCE_ACTION_START_PRE_UPDATES ].

(** Every poll of the chain finds the operation still in progress. *)
Definition always_inprogress (envs : nat → CheckEnv) : Prop :=
  ∀ k, ce_poll (envs k) = Ok "inprogress".

(** The [n]-th evaluation of the chain ends it with the outcome "timeout". *)
Definition times_out_at (envs : nat → CheckEnv) (n : nat)
    (event : DeferredWaitPowerActionCheck) : Prop :=
  ∃ effects,
    nth_evaluation envs n event = Some effects
    ∧ logged_result effects = Some "timeout"
    ∧ enqueued effects = None.

(** The [n]-th evaluation of the chain logs "inprogress" and puts the check
    back on the queue with the retry counter [retries]. *)
Definition requeued_at (envs : nat → CheckEnv) (n : nat)
    (event : DeferredWaitPowerActionCheck) (retries : Z) : Prop :=
  ∃ effects check,
    nth_evaluation envs n event = Some effects
    ∧ logged_result effects = Some "inprogress"
    ∧ enqueued effects = Some check
    ∧ dc_wait_retries check = retries.

(** The evaluation logs "inprogress" and puts the check back on the queue. *)
Definition downgraded_and_requeued (env : CheckEnv)
    (event : DeferredWaitPowerActionCheck) : Prop :=
  ∃ effects check,
    check_powermgmt_status env event = Ok effects
    ∧ logged_result effects = Some "inprogress"
    ∧ enqueued effects = Some check.

(** *** [process_updatemgmt_event], for one resource of the maintenance run

    [vm] is what [vm_manager.get] returns, [None] for
    [ResourceNotFoundError].  The result is the power action that is
    enqueued, if any. *)
Definition process_updatemgmt_resource (alerts : list ResourceGraphItem)
    (resourceId : string) (vm : option AzureResource)
    (is_pre_maintenance : bool) (now : Z)
  : result (option ResourcePowerAction) :=
  details ← decode_resource_id resourceId;
  match vm with
  | None => Ok None
  | Some vm =>
      if truthy_str (tags vm !! RESOURCE_TAGKEY_POWERMGMT_EXEMPT) then Ok None
      else if is_pre_maintenance then
        ids ← find_matching_alert_ids (res_id vm) (details !! "type") alerts;
        mret (Some (create_power_action (res_id vm)
                      RESOURCE_ACTION_START_PRE_UPDATES ids None now))
      else if contains RESOURCE_TAGVAL_STARTED_FOR_MAINTENANCE
                       (powermgmt_status vm)
      then
        ids ← find_matching_alert_ids (res_id vm) (details !! "type") alerts;
        mret (Some (create_power_action (res_id vm)
                      RESOURCE_ACTION_STOP_POST_UPDATES ids None now))
      else Ok None
  end.

End FunctionApp.

Import FunctionApp.

(** ** Sample inputs *)

Module Samples.

Definition vm1 : string :=
  "/subscriptions/s1/resourceGroups/rg1/providers/Microsoft.Compute/virtualMachines/vm1".

(** A running virtual machine with one power-management status tag. *)
Definition running_vm (status : string) : AzureResource :=
  {| res_id := vm1;
     power_state := "running";
     tags := {[ RESOURCE_TAGKEY_POWERMGMT := status ]};
     is_sftp_enabled := false |}.

Definition power_action (action : string) (alert_ids : list string)
  : ResourcePowerAction :=
  create_power_action vm1 action alert_ids None 0.

Definition handle_env (status : string) : HandleEnv :=
  {| he_resource := running_vm status; he_continuation_token := "token" |}.

(** A deferred check of a stop of [vm1] with the given retry counter. *)
Definition stop_check (wait_retries : Z) : DeferredWaitPowerActionCheck :=
  {| dc_id := vm1;
     dc_sub_type := None;
     dc_action := RESOURCE_ACTION_STOP;
     dc_created_at := 0;
     dc_alert_ids := [];
     dc_attempt_num := 1;
     dc_tag_text := Some RESOURCE_TAGVAL_STOP;
     dc_continuation_token := "token";
     dc_wait_retries := wait_retries |}.

(** The provider answers every poll with the same status. *)
Definition poll_env (status : string) (add_tags : bool) : CheckEnv :=
  {| ce_resource := running_vm RESOURCE_TAGVAL_START;
     ce_poll := Ok status;
     ce_add_tags := add_tags |}.

Definition alert (id : string) (properties : list (string * json))
  : ResourceGraphItem :=
  {| rgi_id := id; rgi_name := id;
     rgi_type := "microsoft.insights/activitylogalerts";
     rgi_location := "global"; rgi_properties := properties |}.

End Samples.

(** ** azure_helpers/util.py and managers: power states and polls *)

Module Managers.

#[global] Instance manager_eq_dec : EqDecision manager.
Proof. solve_decision. Defined.

(** [s.replace(old, new)] for a non-empty [old]: the occurrences of [old]
    are replaced from left to right, without overlap.  [skip] counts the
    characters of an occurrence that are still to be dropped. *)
Fixpoint replace_go (old new : string) (skip : nat) (s : string) : string :=
  match s with
  | EmptyString => EmptyString
  | String c r =>
      match skip with
      | S k => replace_go old new k r
      | O =>
          if String.prefix old s
          then new +:+ replace_go old new (String.length old - 1) r
          else String c (replace_go old new 0 r)
      end
  end.

Definition replace (old new s : string) : string := replace_go old new 0 s.

(** [get_power_state]: the codes of [instance_view.statuses] in order; the
    first code that starts with ["powerstate"], case folded, counts. *)
Fixpoint get_power_state (statuses : list string) : option string :=
  match statuses with
  | [] => None
  | code :: rest =>
      if startswith (casefold code) "powerstate"
      then Some (replace "powerstate/" EmptyString (casefold code))
      else get_power_state rest
  end.

(** The setter of [AzureResource.power_state]:
    [power_state.casefold() if power_state else "unknown"] *)
Definition set_power_state (power_state : option string) : string :=
  if truthy_str power_state
  then casefold (default EmptyString power_state)
  else "unknown".

(** [VMManager.get]: [VM.from_vm(vm, get_power_state(instance_view))] *)
Definition vm_get (id : string) (tags : gmap string string)
    (statuses : list string) : AzureResource :=
  {| res_id := id;
     power_state := set_power_state (get_power_state statuses);
     tags := tags;
     is_sftp_enabled := false |}.

(** [AppGatewayManager.get]: the power state is [agw.operational_state]. *)
Definition agw_get (id : string) (tags : gmap string string)
    (operational_state : option string) : AzureResource :=
  {| res_id := id;
     power_state := set_power_state operational_state;
     tags := tags;
     is_sftp_enabled := false |}.

(** [PostgreSQLManager.get]: the power state is [server.state.casefold()]. *)
Definition pgsql_get (id : string) (tags : gmap string string)
    (state : string) : AzureResource :=
  {| res_id := id;
     power_state := set_power_state (Some (casefold state));
     tags := tags;
     is_sftp_enabled := false |}.

(** [StorageAccountSFTPManager.get] *)
Definition sftp_get (id : string) (tags : gmap string string)
    (sftp_enabled : bool) : AzureResource :=
  {| res_id := id;
     power_state :=
       set_power_state (Some (if sftp_enabled then "enabled" else "disabled"));
     tags := tags;
     is_sftp_enabled := sftp_enabled |}.

(** What [poller.result(timeout=...)] and [poller.status()] do in a poll
    with a continuation token: the poller has a status, or [result] raises
    [HttpResponseError], or its subclass [ResourceExistsError] with an
    error code.  The [begin_...] call that rebuilds the poller from the
    token is taken to return. *)
Inductive poller : Type :=
| PollerStatus (status : string)
| PollerHttpResponseError
| PollerResourceExistsError (code : string).

(** Raised as it is: a [ResourceExistsError] is an [HttpResponseError] for
    every handler of this code. *)
Definition poller_result (p : poller) : result string :=
  match p with
  | PollerStatus status => Ok (casefold status)
  | PollerHttpResponseError | PollerResourceExistsError _ =>
      Raise HttpResponseError
  end.

(** The [except ResourceExistsError] of the gateway and storage managers *)
Definition retryable_poller_result (p : poller) : result string :=
  match p with
  | PollerResourceExistsError code =>
      if String.eqb code "AnotherOperationInProgress"
      then Raise PowerMgmtRetryableError
      else Raise HttpResponseError
  | _ => poller_result p
  end.

(** [manager.start(resource, continuation_token=..., timeout=1)] *)
Definition manager_start (m : manager) (resource : AzureResource)
    (p : poller) : result string :=
  match m with
  | VMManager =>
      result_str ← poller_result p;
      if String.eqb result_str "inprogress" && is_running VMManager resource
      then Ok "succeeded" else Ok result_str
  | PostgreSQLManager => poller_result p
  | AppGatewayManager | StorageAccountSFTPManager => retryable_poller_result p
  end.

(** [manager.stop(resource, continuation_token=..., timeout=1)] *)
Definition manager_stop (m : manager) (resource : AzureResource)
    (p : poller) : result string :=
  match m with
  | VMManager => poller_result p
  | PostgreSQLManager =>
      catch (poller_result p) HttpResponseError (Ok "failure")
  | AppGatewayManager | StorageAccountSFTPManager => retryable_poller_result p
  end.

(** One evaluation of [check_powermgmt_status] against the provider: the
    resource that [manager.get] returns, the poller, and whether the tag
    write goes through. *)
Definition provider_check (resource : AzureResource) (p : poller)
    (add_tags : bool) (event : DeferredWaitPowerActionCheck)
  : result (list effect) :=
  '(m, _) ← resolve (dc_id event) (dc_sub_type event);
  let stop := String.eqb (dc_action event) RESOURCE_ACTION_STOP
              || String.eqb (dc_action event) RESOURCE_ACTION_STOP_POST_UPDATES in
  check_powermgmt_status
    {| ce_resource := resource;
       ce_poll := if stop then manager_stop m resource p
                  else manager_start m resource p;
       ce_add_tags := add_tags |}
    event.

End Managers.

Import Managers.

(** ** function_app.py: the scan of one tagged resource

    The body of the loop over the resources in [process_sub_from_queue]:
    from the tags of a resource to the status tag or the power actions that
    are sent.  The log records are left out. *)

Module Scan.

Definition RESOURCE_TAGKEY_SCHEDULE : string := "Schedule".
Definition RESOURCE_TAGKEY_POWERON : string := "PowerOn".
Definition RESOURCE_TAGKEY_POWEROFF : string := "PowerOff".

(** One entry of [POWER_SCHEDULE_CONFIGS];
    [schedule.get(IGNORE_PUBLIC_HOLIDAYS, False)] is the flag. *)
Record schedule_config := {
  cfg_power_on : option string;
  cfg_power_off : option string;
  cfg_ignore_public_holidays : bool;
}.

(** [POWER_SCHEDULE_CONFIGS]; [alwaysoff_delay] is
    [os.getenv('ALWAYSOFF_DELAY', '4')]. *)
Definition POWER_SCHEDULE_CONFIGS (alwaysoff_delay : string)
  : gmap string schedule_config :=
  list_to_map
    [ ("businesshours",
       {| cfg_power_on := Some "0 8 * * 1,2,3,4,5";
          cfg_power_off := Some "0 18 * * 1,2,3,4,5";
          cfg_ignore_public_holidays := true |});
      ("businesshoursextended",
       {| cfg_power_on := Some "0 8 * * 1,2,3,4,5";
          cfg_power_off := Some "0 22 * * 1,2,3,4,5";
          cfg_ignore_public_holidays := false |});
      ("alwaysoff",
       {| cfg_power_on := None;
          cfg_power_off := Some ("0 */" +:+ alwaysoff_delay +:+ " * * *");
          cfg_ignore_public_holidays := false |});
      ("alwayson",
       {| cfg_power_on := Some "0 * * * *";
          cfg_power_off := None;
          cfg_ignore_public_holidays := false |});
      ("offatmidnight",
       {| cfg_power_on := None;
          cfg_power_off := Some "0 0 * * *";
          cfg_ignore_public_holidays := false |});
      ("none",
       {| cfg_power_on := None;
          cfg_power_off := None;
          cfg_ignore_public_holidays := false |}) ].

(** The clock reads of one pass, in the order of the calls: the weekday in
    [convert_time_schedule_to_cron] for the power-off and the power-on tag,
    [now] in the two calls of [should_process_cron_event], and the
    [created_at] of the two power actions. *)
Record ScanClock := {
  day_off : nat;
  day_on : nat;
  now_off : Z;
  now_on : Z;
  created_off : Z;
  created_on : Z;
}.

(** What the pass reads from its surroundings. *)
Record ScanEnv := {
  (** [os.getenv('ALWAYSOFF_DELAY', '4')] *)
  se_alwaysoff_delay : string;
  (** [os.getenv("RESET_LAST_INVOCATION")] *)
  se_reset_last_invocation : option string;
  (** the flag that [is_public_holiday()] returns *)
  se_is_holiday : bool;
  (** [croniter.is_valid] *)
  se_croniter_is_valid : string → bool;
  (** [sub_check.last_check] *)
  se_last_check : option string;
  (** [resourcegraph_manager.query_metric_alerts()] *)
  se_all_alerts : list ResourceGraphItem;
  se_clock : ScanClock;
}.

(** An entry of [supported_res_types] with one of its resources. *)
Record Tagged := {
  tg_manager : manager;
  tg_sub_type : option string;
  tg_resource : AzureResource;
}.

Inductive scan_effect : Type :=
(** [mgr.add_tags(res, create_powermgmt_tags(msg))] *)
| MgrAddTags (resource_id msg : string)
(** [enqueue_power_action(enqueue_queue_name=..., power_action=...)] *)
| EnqueuePowerAction (power_action : ResourcePowerAction).

(** [is_valid_powertag_value] *)
Definition is_valid_powertag_value (croniter_is_valid : string → bool)
    (value : string) : bool :=
  croniter_is_valid value || is_valid_schedule_value value.

(** [f"{x}"] for an optional string *)
Definition str_opt (x : option string) : string := default "None" x.

(** [f"{res.resource_type} {res.name} has invalid tag value '{value}' for
    {key}"] *)
Definition invalid_tag_msg (res : AzureResource) (value key : string)
  : string :=
  str_opt (get_resource_type (res_id res)) +:+ " " +:+ get_name (res_id res)
  +:+ " has invalid tag value '" +:+ value +:+ "' for " +:+ key.

(** The first part of the body: the message for an invalid tag, or the
    pair [(power_off, power_on)]. *)
Definition tag_schedule (env : ScanEnv) (res : AzureResource)
  : string + (option string * option string) :=
  match tags res !! RESOURCE_TAGKEY_SCHEDULE with
  | Some schedule_value =>
      match POWER_SCHEDULE_CONFIGS (se_alwaysoff_delay env)
            !! casefold schedule_value with
      | Some schedule =>
          let power_off := cfg_power_off schedule in
          let power_on :=
            if cfg_ignore_public_holidays schedule && se_is_holiday env
            then None else cfg_power_on schedule in
          inr (power_off, power_on)
      | None =>
          inl (invalid_tag_msg res schedule_value RESOURCE_TAGKEY_SCHEDULE)
      end
  | None =>
      let power_off := tags res !! RESOURCE_TAGKEY_POWEROFF in
      let power_on := tags res !! RESOURCE_TAGKEY_POWERON in
      if truthy_str power_off
         && negb (is_valid_powertag_value (se_croniter_is_valid env)
                    (default EmptyString power_off))
      then inl (invalid_tag_msg res (default EmptyString power_off)
                                RESOURCE_TAGKEY_POWEROFF)
      else if truthy_str power_on
              && negb (is_valid_powertag_value (se_croniter_is_valid env)
                         (default EmptyString power_on))
      then inl (invalid_tag_msg res (default EmptyString power_on)
                                RESOURCE_TAGKEY_POWERON)
      else inr (power_off, power_on)
  end.

(** A tag value that is a time grid becomes the cron of the weekday. *)
Definition grid_to_cron (value : option string) (current_day : nat)
  : result (option string) :=
  if truthy_str value && is_valid_schedule_value (default EmptyString value)
  then convert_time_schedule_to_cron (default EmptyString value) current_day
  else Ok value.

Section scan_resource.

Context `{TimeLibs}.

Variable env : ScanEnv.

(** One of the two [if power_x and res.in_..._state()] blocks. *)
Definition scan_event (res : AzureResource) (sub_type : option string)
    (ready : bool) (cron override : option string) (action : string)
    (now created_at : Z) : result (list scan_effect) :=
  if truthy_str cron && ready then
    let last_check :=
      if bool_decide (se_reset_last_invocation env = Some "true")
      then None else se_last_check env in
    '(fires, _) ← should_process_cron_event now last_check
                    (default EmptyString cron) override "Pacific/Auckland";
    if fires : bool then
      alert_ids ← find_matching_alert_ids (res_id res)
                     (get_resource_type (res_id res)) (se_all_alerts env);
      mret [EnqueuePowerAction
              (create_power_action (res_id res) action alert_ids sub_type
                                   created_at)]
    else mret []
  else mret [].

Definition scan_resource (t : Tagged) : result (list scan_effect) :=
  let res := tg_resource t in
  match tag_schedule env res with
  | inl msg => Ok [MgrAddTags (res_id res) msg]
  | inr (power_off, power_on) =>
      if truthy_str (tags res !! RESOURCE_TAGKEY_POWERMGMT_EXEMPT)
         || (bool_decide (power_off = None) && bool_decide (power_on = None))
      then Ok []
      else
        let clock := se_clock env in
        power_off ← grid_to_cron power_off (day_off clock);
        power_on ← grid_to_cron power_on (day_on clock);
        stop ← scan_event res (tg_sub_type t)
                  (in_stoppable_state (tg_manager t) res)
                  power_off power_on RESOURCE_ACTION_STOP
                  (now_off clock) (created_off clock);
        start ← scan_event res (tg_sub_type t)
                   (in_startable_state (tg_manager t) res)
                   power_on power_off RESOURCE_ACTION_START
                   (now_on clock) (created_on clock);
        mret (stop ++ start)%list
  end.

End scan_resource.

(** The power actions among the effects. *)
Definition enqueued_actions (effects : list scan_effect)
  : list ResourcePowerAction :=
  omap (fun e => match e with
                 | EnqueuePowerAction pa => Some pa
                 | _ => None
                 end) effects.

End Scan.

Import Scan.

(** ** function_app.py and azure_helpers/mg.py: subscription checks *)

Module Subs.

(** [Subscription] *)
Record Subscription := {
  sub_ident : string;
  sub_display_name : string;
  sub_state : string;
}.

(** [SubscriptionCheck]: the fields of the subscription and [last_check] *)
Record SubscriptionCheck := {
  sc_sub : Subscription;
  sc_last_check : option string;
}.

Definition is_active (sub : Subscription) : bool :=
  str_in (sub_state sub) ["Active"; "Enabled"].

Section enqueue_sub_checks.

(** [management_groups.get_descendants(group_id=...)]: the type and name of
    each entity, or an exception. *)
Variable get_descendants : string → result (list (string * string)).

(** [ManagementGroupsManager.get_sub]: [None] for [ResourceNotFoundError]. *)
Variable get_sub : string → option Subscription.

(** [get_subs_in_mg]: an exception is logged and leaves the list empty. *)
Definition get_subs_in_mg (management_group_id : string)
  : list Subscription :=
  match get_descendants management_group_id with
  | Ok entities =>
      omap (fun entity : string * string =>
              if contains "subscriptions" entity.1 then get_sub entity.2
              else None) entities
  | Raise _ => []
  end.

(** [enqueue_sub_checks]: the messages sent to the queue, in order, and the
    list that is returned. *)
Definition enqueue_sub_checks (mg_id sub_id last_check : option string)
  : list SubscriptionCheck * list Subscription :=
  let subs :=
    if truthy_str mg_id then get_subs_in_mg (default EmptyString mg_id)
    else if truthy_str sub_id then
      match get_sub (default EmptyString sub_id) with
      | Some sub => [sub]
      | None => []
      end
    else [] in
  let subs := List.filter is_active subs in
  ((fun sub => {| sc_sub := sub; sc_last_check := last_check |}) <$> subs,
   subs).


(** [trigger_function]: the messages that are sent and the status code of
    the response. *)
Definition trigger_function (management_group_id subscription_id : option string)
  : list SubscriptionCheck * Z :=
  let '(sent, subs) :=
    enqueue_sub_checks management_group_id subscription_id None in
  (sent, if (length subs =? 0)%nat then 404%Z else 200%Z).

End enqueue_sub_checks.

End Subs.

Import Subs.

(** ** More readings of a trace *)

Module Traces.


(** The alert processing rule was switched on ([suppress_alerts(True)]),
    which silences the alerts. *)
Definition alerts_suppressed (effects : list effect) : bool :=
  existsb (fun e => match e with
                    | UpdateAlertProcessingRule _ _ _ true => true
                    | _ => false
                    end)
          effects.

(** The start and stop calls, in order. *)
Definition power_calls (effects : list effect) : list effect :=
  List.filter (fun e => match e with
                        | StartCall _ _ | StopCall _ _ => true
                        | _ => false
                        end) effects.

(** The deferred checks put on the queue, in order. *)
Definition enqueued_checks (effects : list effect)
  : list DeferredWaitPowerActionCheck :=
  omap (fun e => match e with
                 | EnqueueDeferredCheck check => Some check
                 | _ => None
                 end) effects.

(** The log records, in order: the result and the retry counter. *)
Definition log_records (effects : list effect) : list (string * Z) :=
  omap (fun e => match e with
                 | LogCheckPowerMgmtStatus r w => Some (r, w)
                 | _ => None
                 end) effects.

(** The number of evaluations that a chain can still see from the retry
    counter [wait_retries]. *)
Definition polls_left (wait_retries : Z) : nat :=
  Z.to_nat (Z.max 1 (DEFERRED_CHECK_MAX_RETRIES - wait_retries)).

End Traces.

Import Traces.

(** ** More sample inputs *)

Module MoreSamples.

Definition pg1 : string :=
  "/subscriptions/s1/resourceGroups/rg1/providers/Microsoft.DBforPostgreSQL/flexibleServers/pg1".

Definition agw1 : string :=
  "/subscriptions/s1/resourceGroups/rg1/providers/Microsoft.Network/applicationGateways/agw1".

Definition sa1 : string :=
  "/subscriptions/s1/resourceGroups/rg1/providers/Microsoft.Storage/storageAccounts/sa1".

(** A resource with the given id, power state and one status tag. *)
Definition resource (id power_state status : string) : AzureResource :=
  {| res_id := id;
     power_state := power_state;
     tags := {[ RESOURCE_TAGKEY_POWERMGMT := status ]};
     is_sftp_enabled := false |}.

Definition handle_env (id power_state status : string) : HandleEnv :=
  {| he_resource := resource id power_state status;
     he_continuation_token := "token" |}.

Definition power_action (id action : string) (alert_ids : list string)
  : ResourcePowerAction :=
  create_power_action id action alert_ids None 0.

(** A deferred check for [id]. *)
Definition check (id action tag_text : string) (alert_ids : list string)
    (wait_retries : Z) : DeferredWaitPowerActionCheck :=
  {| dc_id := id;
     dc_sub_type := None;
     dc_action := action;
     dc_created_at := 0;
     dc_alert_ids := alert_ids;
     dc_attempt_num := 1;
     dc_tag_text := Some tag_text;
     dc_continuation_token := "token";
     dc_wait_retries := wait_retries |}.

Definition check_env (poll : result string) (add_tags : bool) : CheckEnv :=
  {| ce_resource := resource Samples.vm1 "running" RESOURCE_TAGVAL_START;
     ce_poll := poll;
     ce_add_tags := add_tags |}.

(** A pass at the instant [now] after a check at [last_check], on a Monday;
    no alerts. *)
Definition scan_env (holiday : bool) (now : Z) (last_check : option string)
  : ScanEnv :=
  {| se_alwaysoff_delay := "4";
     se_reset_last_invocation := None;
     se_is_holiday := holiday;
     se_croniter_is_valid :=
       fun value => is_ok (TimeDouble.daily_get_prev value epoch);
     se_last_check := last_check;
     se_all_alerts := [];
     se_clock := {| day_off := 0; day_on := 0;
                    now_off := now; now_on := now;
                    created_off := now; created_on := now |} |}.

(** A virtual machine with the given power state and tags. *)
Definition tagged_vm (power_state : string) (tags : list (string * string))
  : Tagged :=
  {| tg_manager := VMManager;
     tg_sub_type := None;
     tg_resource := {| res_id := Samples.vm1;
                       power_state := power_state;
                       tags := list_to_map tags;
                       is_sftp_enabled := false |} |}.

(** 2024-06-03 (a Monday) at 18:04 and at 00:04 New Zealand time, and the
    checks four minutes before. *)
Definition monday_1804 : Z := 1717394640000000.
Definition monday_1800 : option string := Some "2024-06-03T06:00:00+00:00".
Definition monday_0004 : Z := 1717329840000000.
Definition monday_0000 : option string := Some "2024-06-02T12:00:00+00:00".

(** Two subscriptions, one of them disabled, and a management group that
    holds both. *)
Definition get_sub (sub_id : string) : option Subscription :=
  if String.eqb sub_id "s1"
  then Some {| sub_ident := "s1"; sub_display_name := "one";
               sub_state := "Enabled" |}
  else if String.eqb sub_id "s2"
  then Some {| sub_ident := "s2"; sub_display_name := "two";
               sub_state := "Disabled" |}
  else None.

Definition get_descendants (group_id : string)
  : result (list (string * string)) :=
  if String.eqb group_id "mg1"
  then Ok [ ("Microsoft.Management/managementGroups", "mg2");
            ("/subscriptions", "s1"); ("/subscriptions", "s2") ]
  else Raise HttpResponseError.

End MoreSamples.

(** * Properties *)

(** ** Strings and results *)

Lemma bind_Ok {A B} (m : result A) (f : A → result B) (b : B) :
  m ≫= f = Ok b ↔ ∃ a, m = Ok a ∧ f a = Ok b.
Proof.
  destruct m as [a|e]; simpl; split.
  - intros Hf. exists a. split; [reflexivity | exact Hf].
  - intros (a' & Ha & Hf). injection Ha as <-. exact Hf.
  - discriminate.
  - intros (a' & Ha & _). discriminate.
Qed.

(** No piece of [s.split(sep)] holds the separator. *)
Lemma split_has_char sep s x :
  x ∈ split sep s → has_char sep x = false.
Proof.
  revert x. induction s as [|c r IH]; simpl; intros x Hx.
  - apply list_elem_of_singleton in Hx. subst x. reflexivity.
  - destruct (Ascii.eqb c sep) eqn:Hc.
    + apply elem_of_cons in Hx as [-> | Hx]; [reflexivity | auto].
    + destruct (split sep r) as [|h t] eqn:Hs.
      * apply list_elem_of_singleton in Hx. subst x. simpl. rewrite Hc. reflexivity.
      * apply elem_of_cons in Hx as [-> | Hx].
        -- simpl. rewrite Hc. simpl. apply IH. left.
        -- apply IH. right. exact Hx.
Qed.

Lemma index_Ok {A} (l : list A) i x : index l i = Ok x ↔ l !! i = Some x.
Proof.
  unfold index. destruct (l !! i); split; intros Heq;
    try discriminate; congruence.
Qed.

Lemma index_lt {A} (l : list A) i :
  (i < length l)%nat → ∃ x, l !! i = Some x ∧ index l i = Ok x.
Proof.
  intros Hlt. destruct (lookup_lt_is_Some_2 l i Hlt) as [x Hx].
  exists x. split; [exact Hx | by apply index_Ok].
Qed.

Lemma slice_one {A} (l : list A) i x :
  l !! i = Some x → slice l i (S i) = [x].
Proof.
  intros Hx. unfold slice. replace (S i - i)%nat with 1%nat by lia.
  revert i Hx. induction l as [|y l IH]; intros [|i] Hx; simpl in *;
    try discriminate.
  - injection Hx as ->. by rewrite take_0.
  - by apply IH.
Qed.

(** ** Resource ids *)

Example get_resource_type_vm :
  get_resource_type
    "/subscriptions/s1/resourceGroups/rg1/providers/Microsoft.Compute/virtualMachines/vm1"
  = Some "microsoft.compute/virtualmachines".
Proof. reflexivity. Qed.

Lemma decode_resource_id_Ok resource_id :
  (9 ≤ length (split "/" resource_id))%nat →
  ∃ details ns,
    decode_resource_id resource_id = Ok details
    ∧ split "/" resource_id !! 6%nat = Some ns
    ∧ details !! "type" = Some ns.
Proof.
  intros Hlen. unfold decode_resource_id.
  destruct (index_lt (split "/" resource_id) 2 ltac:(lia)) as (s & _ & ->).
  destruct (index_lt (split "/" resource_id) 4 ltac:(lia)) as (g & _ & ->).
  destruct (index_lt (split "/" resource_id) 6 ltac:(lia)) as (ns & Hns & _).
  destruct (index_lt (split "/" resource_id) 8 ltac:(lia)) as (n & _ & ->).
  simpl. eexists _, ns. split; [reflexivity |]. split; [exact Hns |].
  rewrite (slice_one _ _ _ Hns). simpl.
  rewrite lookup_insert_ne by discriminate.
  rewrite lookup_insert_ne by discriminate.
  by rewrite lookup_insert_eq.
Qed.

(** C10.  For an id of at least nine segments, the ["type"] entry of
    [decode_resource_id] is segment 6 alone, the provider namespace; it
    holds no slash, so it is never the namespace/type pair that
    [get_resource_type] returns, in particular not for a virtual machine;
    and the handler of maintenance events hands this entry to
    [find_matching_alert_ids] as the resource type, before and after the
    maintenance window. *)
Theorem decode_resource_id_type_is_namespace resource_id :
  (9 ≤ length (split "/" resource_id))%nat →
  ∃ details ns,
    decode_resource_id resource_id = Ok details
    ∧ split "/" resource_id !! 6%nat = Some ns
    ∧ details !! "type" = Some ns
    ∧ has_char "/" ns = false
    ∧ (∀ t, get_resource_type resource_id = Some t →
            has_char "/" t = true → details !! "type" ≠ Some t)
    ∧ (get_resource_type resource_id = Some "microsoft.compute/virtualmachines" →
       details !! "type" ≠ get_resource_type resource_id)
    ∧ (∀ alerts vm now,
         truthy_str (tags vm !! RESOURCE_TAGKEY_POWERMGMT_EXEMPT) = false →
         process_updatemgmt_resource alerts resource_id (Some vm) true now
         = (ids ← find_matching_alert_ids (res_id vm) (Some ns) alerts;
            mret (Some (create_power_action (res_id vm)
                          RESOURCE_ACTION_START_PRE_UPDATES ids None now))))
    ∧ (∀ alerts vm now,
         truthy_str (tags vm !! RESOURCE_TAGKEY_POWERMGMT_EXEMPT) = false →
         contains RESOURCE_TAGVAL_STARTED_FOR_MAINTENANCE (powermgmt_status vm)
         = true →
         process_updatemgmt_resource alerts resource_id (Some vm) false now
         = (ids ← find_matching_alert_ids (res_id vm) (Some ns) alerts;
            mret (Some (create_power_action (res_id vm)
                          RESOURCE_ACTION_STOP_POST_UPDATES ids None now)))).
Proof.
  intros Hlen.
  destruct (decode_resource_id_Ok resource_id Hlen) as (details & ns & Hd & Hns & Hty).
  assert (Hslash : has_char "/" ns = false).
  { apply (split_has_char "/" resource_id). by eapply list_elem_of_lookup_2. }
  exists details, ns. repeat split; try assumption.
  - intros t _ Ht Heq. rewrite Hty in Heq. injection Heq as ->. congruence.
  - intros Hvm Heq. rewrite Hty, Hvm in Heq. injection Heq as ->. discriminate.
  - intros alerts vm now Hex. unfold process_updatemgmt_resource.
    rewrite Hd. simpl. rewrite Hex, Hty. reflexivity.
  - intros alerts vm now Hex Hst. unfold process_updatemgmt_resource.
    rewrite Hd. simpl. rewrite Hex, Hst, Hty. reflexivity.
Qed.

Lemma decode_resource_id_type_is_namespace_witness :
  ∃ details ns,
    decode_resource_id
      "/subscriptions/s1/resourceGroups/rg1/providers/Microsoft.Compute/virtualMachines/vm1"
    = Ok details
    ∧ ns = "Microsoft.Compute"
    ∧ details !! "type" = Some ns
    ∧ details !! "type"
      ≠ get_resource_type
          "/subscriptions/s1/resourceGroups/rg1/providers/Microsoft.Compute/virtualMachines/vm1".
Proof.
  destruct (decode_resource_id_type_is_namespace
              "/subscriptions/s1/resourceGroups/rg1/providers/Microsoft.Compute/virtualMachines/vm1")
    as (details & ns & Hd & Hns & Hty & _ & _ & Hvm & _).
  { vm_compute. lia. }
  exists details, ns. split; [exact Hd |].
  split; [vm_compute in Hns; congruence |].
  split; [exact Hty |].
  apply Hvm. reflexivity.
Defined.

(** ** The fire decision *)

Section fire_decision.

Context `{TimeLibs}.

(** The last check is cut to the minute of its own wall clock: the result
    is a whole minute there, and lies at most a minute before the check. *)
Lemma replace_second0_floor d :
  ((timestamp (replace_second0 d) + utcoffset d) mod minute_us = 0
   ∧ timestamp (replace_second0 d) ≤ timestamp d
     < timestamp (replace_second0 d) + minute_us)%Z.
Proof.
  unfold replace_second0, minute_us. simpl.
  set (wall := (timestamp d + utcoffset d)%Z).
  pose proof (Z.mod_pos_bound wall 60000000 ltac:(lia)) as Hb.
  split.
  - replace (wall - wall `mod` 60000000 - utcoffset d + utcoffset d)%Z
      with (wall - wall `mod` 60000000)%Z by lia.
    rewrite Zminus_mod, Zmod_mod, Z.sub_diag. reflexivity.
  - subst wall. lia.
Qed.

Lemma last_invocation_zoned_spec last lc :
  last_invocation_zoned last = Ok lc →
  (truthy_str last = false ∧ timestamp lc = 0%Z)
  ∨ (∃ d, truthy_str last = true
          ∧ fromisoformat (default EmptyString last) = Ok d
          ∧ ((timestamp lc + utcoffset d) mod minute_us = 0
             ∧ timestamp lc ≤ timestamp d < timestamp lc + minute_us)%Z).
Proof.
  unfold last_invocation_zoned. destruct (truthy_str last).
  - intros Hb. apply bind_Ok in Hb as (d & Hd & Hlc). injection Hlc as <-.
    right. exists d. split; [reflexivity |]. split; [exact Hd |].
    apply replace_second0_floor.
  - intros Hlc. injection Hlc as <-. left. split; reflexivity.
Qed.

(** C1.  Without an opposing cron the event fires exactly when
    [lastCheck ≤ prevOccurrence ≤ now], where [prevOccurrence] is what
    [croniter] gives as the previous occurrence from [now] in the local
    zone, and [lastCheck] is the epoch when no last check is given and
    otherwise the last check cut down to the whole minute.  So once
    [lastCheck] lies after [prevOccurrence], that occurrence does not fire
    again. *)
Theorem should_process_cron_event_iff now last cron tz lc prev :
  last_invocation_zoned last = Ok lc →
  croniter_get_prev cron (now_local now tz) = Ok prev →
  ∃ fires dbg,
    should_process_cron_event now last cron None tz = Ok (fires, dbg)
    ∧ (fires = true ↔ (timestamp lc ≤ timestamp prev ≤ now)%Z)
    ∧ ((timestamp prev < timestamp lc)%Z → fires = false)
    ∧ ((truthy_str last = false ∧ timestamp lc = 0%Z)
       ∨ (∃ d, truthy_str last = true
               ∧ fromisoformat (default EmptyString last) = Ok d
               ∧ ((timestamp lc + utcoffset d) mod minute_us = 0
                  ∧ timestamp lc ≤ timestamp d
                    < timestamp lc + minute_us)%Z)).
Proof.
  intros Hlc Hprev. unfold should_process_cron_event.
  rewrite Hlc. simpl. rewrite Hprev. simpl.
  rewrite andb_false_r.
  exists ((timestamp lc <=? timestamp prev)%Z && (timestamp prev <=? now)%Z).
  assert (Hiff : (timestamp lc <=? timestamp prev)%Z
                 && (timestamp prev <=? now)%Z = true
                 ↔ (timestamp lc ≤ timestamp prev ≤ now)%Z).
  { rewrite andb_true_iff, !Z.leb_le. reflexivity. }
  assert (Hdedup : (timestamp prev < timestamp lc)%Z →
                   (timestamp lc <=? timestamp prev)%Z
                   && (timestamp prev <=? now)%Z = false).
  { intros Hlt. apply andb_false_iff. left. apply Z.leb_gt. exact Hlt. }
  pose proof (last_invocation_zoned_spec last lc Hlc) as Hround.
  destruct (now <? timestamp prev)%Z; [eauto 10 |].
  destruct (timestamp prev <? timestamp lc)%Z; eauto 10.
Qed.

(** C3.  When the event would fire and a (non-empty) opposing cron is
    given, the firing is withdrawn exactly when the previous occurrence of
    the opposing cron is strictly later than that of the event. *)
Theorem should_process_cron_event_override
    now last cron override tz lc prev prev_exception :
  override ≠ EmptyString →
  last_invocation_zoned last = Ok lc →
  croniter_get_prev cron (now_local now tz) = Ok prev →
  croniter_get_prev override (now_local now tz) = Ok prev_exception →
  (timestamp lc ≤ timestamp prev ≤ now)%Z →
  ∃ fires dbg,
    should_process_cron_event now last cron (Some override) tz
    = Ok (fires, dbg)
    ∧ ((timestamp prev < timestamp prev_exception)%Z → fires = false)
    ∧ ((timestamp prev_exception ≤ timestamp prev)%Z → fires = true).
Proof.
  intros Hne Hlc Hprev Hexc [Hlo Hhi]. unfold should_process_cron_event.
  rewrite Hlc. simpl. rewrite Hprev. simpl.
  apply Z.leb_le in Hlo as Hlo'. apply Z.leb_le in Hhi as Hhi'.
  rewrite Hlo', Hhi'. simpl.
  assert (Htruthy : negb (String.eqb override EmptyString) = true).
  { apply negb_true_iff. by apply String.eqb_neq. }
  rewrite Htruthy, Hexc. simpl. rewrite andb_true_r.
  destruct (Z.leb_spec (timestamp prev_exception) (timestamp prev)); simpl.
  - eexists _, _. split; [reflexivity |]. split; [lia | reflexivity].
  - eexists _, _. split; [reflexivity |]. split; [reflexivity | lia].
Qed.

End fire_decision.

(** The daily event of 18:00 New Zealand time, looked at on 2024-06-03 at
    18:04, after a check at 18:00:30 of the same day. *)
Lemma should_process_cron_event_iff_witness :
  ∃ dbg,
    @should_process_cron_event TimeDouble.libs 1717394640000000
      (Some "2024-06-03T06:00:30+00:00") "0 18 * * *" None "Pacific/Auckland"
    = Ok (true, dbg).
Proof.
  destruct (@should_process_cron_event_iff TimeDouble.libs 1717394640000000
              (Some "2024-06-03T06:00:30+00:00") "0 18 * * *" "Pacific/Auckland"
              {| timestamp := 1717394400000000; utcoffset := 0 |}
              {| timestamp := 1717394400000000; utcoffset := 43200000000 |})
    as (fires & dbg & Heq & Hiff & _).
  - vm_compute. reflexivity.
  - vm_compute. reflexivity.
  - exists dbg. rewrite Heq. replace fires with true; [reflexivity |].
    symmetry. apply Hiff. simpl. lia.
Defined.

(** The same event, with an opposing event at 18:02. *)
Lemma should_process_cron_event_override_witness :
  ∃ dbg,
    @should_process_cron_event TimeDouble.libs 1717394640000000
      None "0 18 * * *" (Some "2 18 * * *") "Pacific/Auckland"
    = Ok (false, dbg).
Proof.
  destruct (@should_process_cron_event_override TimeDouble.libs
              1717394640000000 None "0 18 * * *" "2 18 * * *"
              "Pacific/Auckland"
              {| timestamp := 0; utcoffset := 0 |}
              {| timestamp := 1717394400000000; utcoffset := 43200000000 |}
              {| timestamp := 1717394520000000; utcoffset := 43200000000 |})
    as (fires & dbg & Heq & Hoff & _).
  - discriminate.
  - vm_compute. reflexivity.
  - vm_compute. reflexivity.
  - vm_compute. reflexivity.
  - simpl. lia.
  - exists dbg. rewrite Heq. replace fires with false; [reflexivity |].
    symmetry. apply Hoff. simpl. lia.
Defined.

(** The dedup example of the specification: the check at 18:04 fires the
    18:00 event once; with the last check moved to 18:04 it does not fire
    again. *)
Example dedup_second_evaluation :
  fst <$> @should_process_cron_event TimeDouble.libs 1717394640000000
            (Some "2024-06-03T06:00:00+00:00") "0 18 * * *" None
            "Pacific/Auckland" = Ok true
  ∧ fst <$> @should_process_cron_event TimeDouble.libs 1717394940000000
              (Some "2024-06-03T06:04:00+00:00") "0 18 * * *" None
              "Pacific/Auckland" = Ok false.
Proof. split; vm_compute; reflexivity. Qed.

(** The cut to the minute at work: a last check at 18:00:30 counts as
    18:00, so the 18:00 event is still eligible at the next look. *)
Example last_check_within_the_minute :
  fst <$> @should_process_cron_event TimeDouble.libs 1717394700000000
            (Some "2024-06-03T06:00:30+00:00") "0 18 * * *" None
            "Pacific/Auckland" = Ok true.
Proof. vm_compute. reflexivity. Qed.

(** ** Stop actions and the maintenance window *)

#[local] Arguments str_in : simpl never.
#[local] Arguments in_stoppable_state : simpl never.
#[local] Arguments in_startable_state : simpl never.
#[local] Arguments powermgmt_status : simpl never.
#[local] Arguments nonempty : simpl never.
#[local] Arguments suppress_alerts : simpl never.
#[local] Arguments get_resource_type : simpl never.

Lemma str_in_spec x l : str_in x l = true ↔ x ∈ l.
Proof.
  unfold str_in. rewrite existsb_exists. split.
  - intros (y & Hy & Heq). apply String.eqb_eq in Heq. subst y.
    by apply list_elem_of_In.
  - intros Hx. exists x. split; [by apply list_elem_of_In |].
    apply String.eqb_refl.
Qed.

Lemma str_in_false x l : str_in x l = false ↔ x ∉ l.
Proof.
  rewrite <- str_in_spec. destruct (str_in x l); split;
    congruence || (intros Hn; exfalso; by apply Hn) || reflexivity.
Qed.

(** The alert suppression that precedes a stop issues no stop call and
    writes no tag. *)
Lemma suppress_prefix (alert_ids : list string) resource rg rest :
  let suppress := if nonempty alert_ids
                  then [suppress_alerts resource rg true] else [] in
  stop_issued (suppress ++ rest)%list = stop_issued rest
  ∧ tags_written (suppress ++ rest)%list = tags_written rest.
Proof. destruct alert_ids; split; reflexivity. Qed.

(** C5.  A stop action on a resource in a stoppable state: when the status
    tag is one of the three maintenance-window values no stop call is
    issued and the status "stop pending" is written instead; a stop call is
    issued only when the status tag is none of them. *)
Theorem stop_respects_maintenance_window env event m rg :
  pa_action event = RESOURCE_ACTION_STOP →
  resolve (pa_id event) (pa_sub_type event) = Ok (m, rg) →
  in_stoppable_state m (he_resource env) = true →
  ∃ effects,
    handle_powermgmt_event_with_deferred_wait env event = Ok effects
    ∧ (powermgmt_status (he_resource env)
       ∈ RESOURCE_TAGVALS_IN_MAINTENANCE_WINDOW →
       stop_issued effects = false
       ∧ tags_written effects
         = [Some RESOURCE_TAGVAL_IN_MAINTENANCE_STOP_PENDING])
    ∧ (stop_issued effects = true ↔
       powermgmt_status (he_resource env)
       ∉ RESOURCE_TAGVALS_IN_MAINTENANCE_WINDOW).
Proof.
  intros Hact Hres Hstop. unfold handle_powermgmt_event_with_deferred_wait.
  rewrite Hres, Hact. simpl. rewrite Hstop.
  destruct (str_in (powermgmt_status (he_resource env))
                   RESOURCE_TAGVALS_IN_MAINTENANCE_WINDOW) eqn:Hin; simpl.
  - apply str_in_spec in Hin.
    eexists. split; [reflexivity |].
    destruct (suppress_prefix (pa_alert_ids event) (he_resource env) rg
                [AddTags (res_id (he_resource env))
                   (Some RESOURCE_TAGVAL_IN_MAINTENANCE_STOP_PENDING)])
      as [-> ->].
    simpl. split; [done |]. split; [discriminate | done].
  - apply str_in_false in Hin.
    repeat case_bool_decide; eexists; (split; [reflexivity |]);
      match goal with
      | |- context [((if nonempty ?ids then _ else _) ++ ?rest)%list] =>
          destruct (suppress_prefix ids (he_resource env) rg rest) as [-> ->]
      end; simpl; (split; [done |]); split; done.
Qed.

(** A stop for a running machine that is tagged "In maintenance window". *)
Lemma stop_respects_maintenance_window_witness :
  ∃ effects,
    handle_powermgmt_event_with_deferred_wait
      (Samples.handle_env RESOURCE_TAGVAL_IN_MAINTENANCE)
      (Samples.power_action RESOURCE_ACTION_STOP ["alert1"]) = Ok effects
    ∧ stop_issued effects = false
    ∧ tags_written effects
      = [Some RESOURCE_TAGVAL_IN_MAINTENANCE_STOP_PENDING].
Proof.
  destruct (stop_respects_maintenance_window
              (Samples.handle_env RESOURCE_TAGVAL_IN_MAINTENANCE)
              (Samples.power_action RESOURCE_ACTION_STOP ["alert1"])
              VMManager "rg1")
    as (effects & Heq & Hmaint & _).
  - reflexivity.
  - vm_compute. reflexivity.
  - vm_compute. reflexivity.
  - exists effects. split; [exact Heq |]. apply Hmaint.
    apply str_in_spec. vm_compute. reflexivity.
Defined.

(** C6.  A [stop_post_updates] action issues a stop call exactly when the
    resource is in a stoppable state and its status tag is "stop pending"
    or "started for maintenance"; in every other case it issues no stop and
    writes the one status "Maintenance window completed". *)
Theorem stop_post_updates_iff env event m rg :
  pa_action event = RESOURCE_ACTION_STOP_POST_UPDATES →
  resolve (pa_id event) (pa_sub_type event) = Ok (m, rg) →
  ∃ effects,
    handle_powermgmt_event_with_deferred_wait env event = Ok effects
    ∧ (stop_issued effects = true ↔
       in_stoppable_state m (he_resource env) = true
       ∧ (powermgmt_status (he_resource env)
          = RESOURCE_TAGVAL_IN_MAINTENANCE_STOP_PENDING
          ∨ powermgmt_status (he_resource env)
            = RESOURCE_TAGVAL_STARTED_FOR_MAINTENANCE))
    ∧ (stop_issued effects = false →
       tags_written effects = [Some RESOURCE_TAGVAL_INFO_POST_MAINTENANCE])
    ∧ (stop_issued effects = true → tags_written effects = []).
Proof.
  intros Hact Hres. unfold handle_powermgmt_event_with_deferred_wait.
  rewrite Hres, Hact. simpl.
  assert (Hlist : ∀ x,
    str_in x [ RESOURCE_TAGVAL_IN_MAINTENANCE_STOP_PENDING;
               RESOURCE_TAGVAL_STARTED_FOR_MAINTENANCE ] = true
    ↔ x = RESOURCE_TAGVAL_IN_MAINTENANCE_STOP_PENDING
      ∨ x = RESOURCE_TAGVAL_STARTED_FOR_MAINTENANCE).
  { intros x. rewrite str_in_spec, !elem_of_cons, elem_of_nil. tauto. }
  destruct (in_stoppable_state m (he_resource env)) eqn:Hstop; simpl;
    [destruct (str_in _ _) eqn:Hin |];
    (eexists; split; [reflexivity |]);
    match goal with
    | |- context [((if nonempty ?ids then _ else _) ++ ?rest)%list] =>
        destruct (suppress_prefix ids (he_resource env) rg rest) as [-> ->]
    end; simpl.
  - apply Hlist in Hin. repeat split; done.
  - split; [| done]. split; [done |]. intros [_ Hst]. apply Hlist in Hst.
    congruence.
  - split; [| done]. split; [done | intros [? _]; done].
Qed.

(** After the maintenance window, a running machine that is tagged "stop
    pending" is stopped. *)
Lemma stop_post_updates_iff_witness :
  ∃ effects,
    handle_powermgmt_event_with_deferred_wait
      (Samples.handle_env RESOURCE_TAGVAL_IN_MAINTENANCE_STOP_PENDING)
      (Samples.power_action RESOURCE_ACTION_STOP_POST_UPDATES []) = Ok effects
    ∧ stop_issued effects = true.
Proof.
  destruct (stop_post_updates_iff
              (Samples.handle_env RESOURCE_TAGVAL_IN_MAINTENANCE_STOP_PENDING)
              (Samples.power_action RESOURCE_ACTION_STOP_POST_UPDATES [])
              VMManager "rg1")
    as (effects & Heq & Hiff & _).
  - reflexivity.
  - vm_compute. reflexivity.
  - exists effects. split; [exact Heq |]. apply Hiff.
    split; [vm_compute; reflexivity | left; vm_compute; reflexivity].
Defined.

(** ** The deferred-check loop *)

Lemma poll_call_Ok action rid token :
  action ∈ POLL_ACTIONS →
  poll_call action rid token = Ok (PollStop rid token)
  ∨ poll_call action rid token = Ok (PollStart rid token).
Proof.
  unfold POLL_ACTIONS. rewrite !elem_of_cons, elem_of_nil.
  intros [-> | [-> | [-> | [-> | []]]]]; auto.
Qed.

(** One poll that finds the operation in progress. *)
Lemma check_inprogress env event m rg :
  resolve (dc_id event) (dc_sub_type event) = Ok (m, rg) →
  dc_action event ∈ POLL_ACTIONS →
  ce_poll env = Ok "inprogress" →
  ∃ effects,
    check_powermgmt_status env event = Ok effects
    ∧ tags_written effects = []
    ∧ alerts_reenabled effects = false
    ∧ if (dc_wait_retries event + 1 <? DEFERRED_CHECK_MAX_RETRIES)%Z
      then logged_result effects = Some "inprogress"
           ∧ enqueued effects = Some (bump_wait_retries event)
      else logged_result effects = Some "timeout"
           ∧ enqueued effects = None.
Proof.
  intros Hres Hact Hpoll. unfold check_powermgmt_status.
  rewrite Hres. simpl.
  destruct (poll_call_Ok _ (res_id (ce_resource env))
              (dc_continuation_token event) Hact) as [-> | ->];
    rewrite Hpoll; simpl;
    destruct (dc_wait_retries event + 1 <? DEFERRED_CHECK_MAX_RETRIES)%Z;
    eexists; (split; [reflexivity |]); simpl; auto.
Qed.

Lemma nth_evaluation_SS envs n event :
  nth_evaluation envs (S (S n)) event
  = match check_powermgmt_status (envs O) event with
    | Raise _ => None
    | Ok effects =>
        match enqueued effects with
        | Some event' => nth_evaluation (fun k => envs (S k)) (S n) event'
        | None => None
        end
    end.
Proof. reflexivity. Qed.

(** The chain of polls that all find the operation in progress, from any
    retry counter: [polls] evaluations are left until the time-out. *)
Lemma chain_inprogress n : ∀ envs event m rg,
  resolve (dc_id event) (dc_sub_type event) = Ok (m, rg) →
  dc_action event ∈ POLL_ACTIONS →
  always_inprogress envs →
  let polls := Z.max 1 (DEFERRED_CHECK_MAX_RETRIES - dc_wait_retries event) in
  ((Z.of_nat (S n) < polls)%Z →
   requeued_at envs (S n) event (dc_wait_retries event + Z.of_nat (S n)))
  ∧ ((Z.of_nat (S n) = polls)%Z → times_out_at envs (S n) event)
  ∧ ((polls < Z.of_nat (S n))%Z → nth_evaluation envs (S n) event = None).
Proof.
  induction n as [|n IH]; intros envs event m rg Hres Hact Henvs polls;
    destruct (check_inprogress (envs O) event m rg Hres Hact (Henvs O))
      as (effects & Hcheck & _ & _ & Hstep);
    unfold requeued_at, times_out_at; subst polls;
    unfold DEFERRED_CHECK_MAX_RETRIES in *.
  - simpl nth_evaluation. rewrite Hcheck.
    destruct (Z.ltb_spec (dc_wait_retries event + 1) 10) as [Hlt | Hge];
      destruct Hstep as [Hlog Henq].
    + split; [| split; intros; lia].
      intros _. exists effects, (bump_wait_retries event).
      split; [reflexivity |]. split; [exact Hlog |]. split; [exact Henq |].
      simpl. lia.
    + split; [intros; lia |]. split; [| intros; lia].
      intros _. exists effects. auto.
  - rewrite nth_evaluation_SS, Hcheck.
    destruct (Z.ltb_spec (dc_wait_retries event + 1) 10) as [Hlt | Hge];
      destruct Hstep as [Hlog Henq]; rewrite Henq.
    + destruct (IH (fun k => envs (S k)) (bump_wait_retries event) m rg)
        as (Hre & Hto & Hno); [exact Hres | exact Hact | |].
      { intros k. apply Henvs. }
      simpl dc_wait_retries in Hre, Hto, Hno.
      split; [| split].
      * intros Hn. unfold requeued_at in Hre.
        replace (dc_wait_retries event + Z.of_nat (S (S n)))%Z
          with (dc_wait_retries event + 1 + Z.of_nat (S n))%Z by lia.
        apply Hre. lia.
      * intros Hn. apply Hto. lia.
      * intros Hn. apply Hno. lia.
    + split; [intros; lia |]. split; [intros; lia | reflexivity].
Qed.

(** The claim C2 as it is worded fails: with every poll in progress and the
    counter starting at 0, there is no 11th evaluation that could time out,
    because the 10th enqueues nothing. *)
Lemma eleventh_evaluation_counterexample :
  ¬ times_out_at (fun _ => Samples.poll_env "inprogress" true) 11
      (Samples.stop_check 0).
Proof.
  intros (effects & Heq & _). vm_compute in Heq. discriminate.
Qed.

(** C2, as the code has it.  A poll that finds the operation in progress
    puts the check back on the queue exactly when the incremented retry
    counter is below 10.  So from the counter 0, with every poll in
    progress, evaluations 1 to 9 log "inprogress" and enqueue the check
    again; the 10th logs the final outcome "timeout" and enqueues nothing;
    no further evaluation takes place. *)
Theorem deferred_check_times_out_at_tenth envs event m rg :
  resolve (dc_id event) (dc_sub_type event) = Ok (m, rg) →
  dc_action event ∈ POLL_ACTIONS →
  always_inprogress envs →
  (∃ effects,
     check_powermgmt_status (envs O) event = Ok effects
     ∧ (is_Some (enqueued effects) ↔
        (dc_wait_retries event + 1 < DEFERRED_CHECK_MAX_RETRIES)%Z)
     ∧ (enqueued effects = None → logged_result effects = Some "timeout"))
  ∧ (dc_wait_retries event = 0%Z →
     (∀ n, (1 ≤ n ≤ 9)%nat → requeued_at envs n event (Z.of_nat n))
     ∧ times_out_at envs 10 event
     ∧ (∀ n, (10 < n)%nat → nth_evaluation envs n event = None)).
Proof.
  intros Hres Hact Henvs. split.
  - destruct (check_inprogress (envs O) event m rg Hres Hact (Henvs O))
      as (effects & Hcheck & _ & _ & Hstep).
    exists effects. split; [exact Hcheck |].
    destruct (Z.ltb_spec (dc_wait_retries event + 1)
                DEFERRED_CHECK_MAX_RETRIES) as [Hlt | Hge];
      destruct Hstep as [Hlog Henq]; rewrite Henq.
    + split; [| discriminate]. split; [intros _; exact Hlt | eauto].
    + split; [| intros _; exact Hlog].
      split; [intros [? ?]; discriminate | lia].
  - intros Hzero. split; [| split].
    + intros [|n] Hn; [lia |].
      destruct (chain_inprogress n envs event m rg Hres Hact Henvs)
        as (Hre & _ & _).
      rewrite Hzero in Hre. apply Hre.
      unfold DEFERRED_CHECK_MAX_RETRIES. lia.
    + destruct (chain_inprogress 9 envs event m rg Hres Hact Henvs)
        as (_ & Hto & _).
      apply Hto. rewrite Hzero. reflexivity.
    + intros [|n] Hn; [lia |].
      destruct (chain_inprogress n envs event m rg Hres Hact Henvs)
        as (_ & _ & Hno).
      apply Hno. rewrite Hzero. unfold DEFERRED_CHECK_MAX_RETRIES. lia.
Qed.

(** The stop of a virtual machine whose polls all find it in progress. *)
Lemma deferred_check_times_out_at_tenth_witness :
  times_out_at (fun _ => Samples.poll_env "inprogress" true) 10
    (Samples.stop_check 0)
  ∧ nth_evaluation (fun _ => Samples.poll_env "inprogress" true) 11
      (Samples.stop_check 0) = None.
Proof.
  destruct (deferred_check_times_out_at_tenth
              (fun _ => Samples.poll_env "inprogress" true)
              (Samples.stop_check 0) VMManager "rg1")
    as (_ & Hchain).
  - vm_compute. reflexivity.
  - unfold POLL_ACTIONS. left.
  - intros k. reflexivity.
  - destruct (Hchain eq_refl) as (_ & Hto & Hno).
    split; [exact Hto | apply Hno; lia].
Defined.

(** ** A tag write that fails *)

(** The claim C7 as it is worded fails at the last retry: the stop has
    succeeded, the tag write fails, the counter stands at 9; the outcome is
    "timeout" and the check is not put back on the queue. *)
Lemma tag_failure_at_last_retry_counterexample :
  ¬ downgraded_and_requeued (Samples.poll_env "succeeded" false)
      (Samples.stop_check 9).
Proof.
  intros (effects & check & Heq & Hlog & _).
  vm_compute in Heq. injection Heq as <-. vm_compute in Hlog. discriminate.
Qed.

Lemma catch_http_Ok (m : result string) r :
  catch m HttpResponseError (Ok "failed") = Ok r →
  m = Ok r ∨ (m = Raise HttpResponseError ∧ r = "failed").
Proof.
  destruct m as [a|e]; simpl.
  - intros Heq. left. exact Heq.
  - case_decide; [| discriminate]. subst e. intros Heq. right.
    split; [reflexivity | congruence].
Qed.

(** Closes [alerts_reenabled effects = true ↔ ...] once [effects] is an
    explicit list; [Hstart] is the test of the action against [start]. *)
Ltac finish_alert_iff Hstart :=
  unfold suppress_alerts; simpl;
  split;
  [ intros Hre;
    first [ discriminate Hre
          | split; [reflexivity |];
            split; [by apply String.eqb_eq | discriminate] ]
  | intros (Hlog & Haction & Hids);
    first [ discriminate Hlog
          | reflexivity
          | by elim Hids
          | apply String.eqb_neq in Hstart; by elim Hstart ] ].

(** C7, as the code has it.  When the poll reports success, a tag text is
    pending and the tag write fails, the tag write is the only one made,
    no alert is re-enabled, and the evaluation goes on as for a poll in
    progress: the retry counter is incremented and the check is put back on
    the queue with the outcome "inprogress" when the incremented counter is
    below 10, and otherwise the outcome is "timeout" and nothing is
    enqueued.  In every evaluation the alerts are re-enabled exactly when
    the final outcome is "succeeded", the action is [start] and alert ids
    are correlated. *)
Theorem tag_write_failure_is_inprogress env event m rg effects :
  resolve (dc_id event) (dc_sub_type event) = Ok (m, rg) →
  dc_action event ∈ POLL_ACTIONS →
  check_powermgmt_status env event = Ok effects →
  (ce_poll env = Ok "succeeded" →
   dc_tag_text event ≠ Some EmptyString →
   ce_add_tags env = false →
   tags_written effects = [dc_tag_text event]
   ∧ alerts_reenabled effects = false
   ∧ if (dc_wait_retries event + 1 <? DEFERRED_CHECK_MAX_RETRIES)%Z
     then logged_result effects = Some "inprogress"
          ∧ enqueued effects = Some (bump_wait_retries event)
     else logged_result effects = Some "timeout"
          ∧ enqueued effects = None)
  ∧ (alerts_reenabled effects = true ↔
     logged_result effects = Some "succeeded"
     ∧ dc_action event = RESOURCE_ACTION_START
     ∧ dc_alert_ids event ≠ []).
Proof.
  intros Hres Hact. unfold check_powermgmt_status.
  rewrite Hres. simpl.
  destruct (poll_call_Ok _ (res_id (ce_resource env))
              (dc_continuation_token event) Hact) as [-> | ->]; simpl.
  all: destruct (catch (ce_poll env) HttpResponseError (Ok "failed"))
         as [r|e] eqn:Hcatch; simpl; [| discriminate].
  all: intros Heff; split.
  (* the tag write fails *)
  1,3: intros Hpoll Htag Hadd; rewrite Hpoll in Hcatch; simpl in Hcatch;
       injection Hcatch as <-; rewrite Hadd in Heff;
       rewrite bool_decide_eq_false_2 in Heff by exact Htag;
       simpl in Heff;
       destruct (dc_wait_retries event + 1 <? DEFERRED_CHECK_MAX_RETRIES)%Z;
       injection Heff as <-; simpl; auto.
  (* the alerts *)
  all: destruct (String.eqb r "succeeded") eqn:Hsucc;
       [ apply String.eqb_eq in Hsucc; subst r | ].
  - destruct (bool_decide (dc_tag_text event = Some EmptyString)),
      (ce_add_tags env),
      (String.eqb (dc_action event) RESOURCE_ACTION_START) eqn:Hstart,
      (dc_alert_ids event) as [|a ids],
      (dc_wait_retries event + 1 <? DEFERRED_CHECK_MAX_RETRIES)%Z;
      simpl in Heff; unfold nonempty in Heff; simpl in Heff;
      injection Heff as <-; finish_alert_iff Hstart.
  - simpl in Heff. rewrite Hsucc in Heff.
    destruct (String.eqb r "inprogress"),
      (dc_wait_retries event + 1 <? DEFERRED_CHECK_MAX_RETRIES)%Z;
      injection Heff as <-; simpl; apply String.eqb_neq in Hsucc;
      (split; [discriminate | intros (Hl & _); congruence]).
  - destruct (bool_decide (dc_tag_text event = Some EmptyString)),
      (ce_add_tags env),
      (String.eqb (dc_action event) RESOURCE_ACTION_START) eqn:Hstart,
      (dc_alert_ids event) as [|a ids],
      (dc_wait_retries event + 1 <? DEFERRED_CHECK_MAX_RETRIES)%Z;
      simpl in Heff; unfold nonempty in Heff; simpl in Heff;
      injection Heff as <-; finish_alert_iff Hstart.
  - simpl in Heff. rewrite Hsucc in Heff.
    destruct (String.eqb r "inprogress"),
      (dc_wait_retries event + 1 <? DEFERRED_CHECK_MAX_RETRIES)%Z;
      injection Heff as <-; simpl; apply String.eqb_neq in Hsucc;
      (split; [discriminate | intros (Hl & _); congruence]).
Qed.

(** The stop has succeeded, the tag write fails, the counter stands at 3. *)
Lemma tag_write_failure_is_inprogress_witness :
  ∃ effects,
    check_powermgmt_status (Samples.poll_env "succeeded" false)
      (Samples.stop_check 3) = Ok effects
    ∧ tags_written effects = [Some RESOURCE_TAGVAL_STOP]
    ∧ logged_result effects = Some "inprogress"
    ∧ enqueued effects = Some (Samples.stop_check 4).
Proof.
  destruct (check_powermgmt_status (Samples.poll_env "succeeded" false)
              (Samples.stop_check 3)) as [effects|e] eqn:Hcheck;
    [| vm_compute in Hcheck; discriminate].
  exists effects. split; [reflexivity |].
  destruct (tag_write_failure_is_inprogress
              (Samples.poll_env "succeeded" false) (Samples.stop_check 3)
              VMManager "rg1" effects) as [Hfail _].
  - vm_compute. reflexivity.
  - unfold POLL_ACTIONS. left.
  - exact Hcheck.
  - destruct Hfail as (Htags & _ & Hlog & Henq).
    + reflexivity.
    + discriminate.
    + reflexivity.
    + auto.
Defined.

(** ** Weekday time grids *)

(** C4.  [TIME_SCHEDULE_PATTERN] admits [/] between the slots, but the
    conversion splits at [,] only: a grid written with slashes is a valid
    schedule value and makes the conversion raise ([IndexError] from
    Tuesday on, [ValueError] on Monday); a grid that mixes both separators
    is read at the wrong slot (Friday's 8 o'clock is lost).  The same grid
    written with commas converts as the claim says.  The pattern also
    admits a minute after [-], which the conversion cannot read. *)
Theorem convert_time_schedule_slash_grid :
  is_valid_schedule_value "8/8/8/8/8/-/-" = true
  ∧ convert_time_schedule_to_cron "8/8/8/8/8/-/-" 1 = Raise IndexError
  ∧ convert_time_schedule_to_cron "8/8/8/8/8/-/-" 0 = Raise ValueError
  ∧ is_valid_schedule_value "8,8/8,8,8/-,-" = true
  ∧ convert_time_schedule_to_cron "8,8/8,8,8/-,-" 4 = Ok None
  ∧ convert_time_schedule_to_cron "8,8,8,8,8,-,-" 1 = Ok (Some "0 8 * * 2")
  ∧ convert_time_schedule_to_cron "8,8,8,8,8,-,-" 4 = Ok (Some "0 8 * * 5")
  ∧ is_valid_schedule_value "-:30,8,8,8,8,8,8" = true
  ∧ convert_time_schedule_to_cron "-:30,8,8,8,8,8,8" 0 = Raise ValueError.
Proof. repeat split; vm_compute; reflexivity. Qed.

(** ** The alert matcher *)

(** C8.  The scope test folds the case of the resource id only, not of the
    scope: an alert whose scope is written with capitals is not matched,
    although the id starts with the scope when case is ignored; the same
    alert with its scope in lower case is matched. *)
Theorem find_matching_alert_ids_scope_case :
  startswith (casefold Samples.vm1)
             (casefold "/subscriptions/S1/resourceGroups/RG1") = true
  ∧ find_matching_alert_ids Samples.vm1
      (Some "microsoft.compute/virtualmachines")
      [ Samples.alert "alert1"
          [("scopes", JList [JStr "/subscriptions/S1/resourceGroups/RG1"])] ]
    = Ok []
  ∧ find_matching_alert_ids Samples.vm1
      (Some "microsoft.compute/virtualmachines")
      [ Samples.alert "alert1"
          [("scopes", JList [JStr "/subscriptions/s1/resourcegroups/rg1"])] ]
    = Ok ["alert1"].
Proof. repeat split; vm_compute; reflexivity. Qed.

(** C9.  A condition that is a number is neither a boolean nor a dict; the
    test ["allOf" in expr] raises [TypeError] on it, which
    [condition_matches] does not catch: the call raises, and the second
    alert, which matches, is never looked at. *)
Theorem find_matching_alert_ids_number_condition :
  find_matching_alert_ids Samples.vm1
    (Some "microsoft.compute/virtualmachines")
    [ Samples.alert "alert1"
        [ ("scopes", JList [JStr "/subscriptions/s1"]);
          ("condition", JNum 5) ];
      Samples.alert "alert2"
        [ ("scopes", JList [JStr "/subscriptions/s1"]) ] ]
  = Raise TypeError
  ∧ find_matching_alert_ids Samples.vm1
      (Some "microsoft.compute/virtualmachines")
      [ Samples.alert "alert2"
          [ ("scopes", JList [JStr "/subscriptions/s1"]) ] ]
    = Ok ["alert2"].
Proof. split; vm_compute; reflexivity. Qed.

(** *** The recursion of [evaluate_condition] ends *)

Lemma depth_elem x (l : list json) :
  x ∈ l → (depth x ≤ foldr (fun x n => Nat.max (depth x) n) 0 l)%nat.
Proof.
  induction 1 as [x l | x y l _ IH]; simpl; lia.
Qed.

Lemma depth_dict_get k d v :
  dict_get k d = Some v → (depth v < depth (JDict d))%nat.
Proof.
  simpl. induction d as [|[k' v'] d IH]; simpl; [discriminate |].
  destruct (String.eqb k' k).
  - intros Heq. injection Heq as ->. lia.
  - intros Heq. specialize (IH Heq). lia.
Qed.

Lemma depth_py_iter v items x :
  py_iter v = Ok items → x ∈ items → (depth x ≤ depth v)%nat.
Proof.
  destruct v; simpl; try discriminate; intros Heq Hx;
    injection Heq as <-.
  - apply list_elem_of_fmap in Hx as (c & -> & _). simpl. lia.
  - apply depth_elem in Hx. lia.
  - apply list_elem_of_fmap in Hx as (c & -> & _). simpl. lia.
Qed.

Lemma py_all_is_Some f items :
  (∀ x, x ∈ items → is_Some (f x)) → is_Some (py_all f items).
Proof.
  induction items as [|x r IH]; simpl; intros Hf; [eauto |].
  destruct (Hf x ltac:(left)) as [[[|]|e] ->]; eauto.
  apply IH. intros y Hy. apply Hf. by right.
Qed.

Lemma py_any_is_Some f items :
  (∀ x, x ∈ items → is_Some (f x)) → is_Some (py_any f items).
Proof.
  induction items as [|x r IH]; simpl; intros Hf; [eauto |].
  destruct (Hf x ltac:(left)) as [[[|]|e] ->]; eauto.
  apply IH. intros y Hy. apply Hf. by right.
Qed.

(** Fuel above the nesting depth of the condition always gives a result. *)
Lemma evaluate_condition_fuel_is_Some fuel : ∀ expr criteria,
  (depth expr < fuel)%nat →
  is_Some (evaluate_condition_fuel fuel expr criteria).
Proof.
  induction fuel as [|fuel IH]; intros expr criteria Hd; [lia |].
  assert (Hsub : ∀ k sub items,
    getitem expr k = Ok sub → py_iter sub = Ok items →
    ∀ x, x ∈ items → is_Some (evaluate_condition_fuel fuel x criteria)).
  { intros k sub items Hget Hiter x Hx. apply IH.
    pose proof (depth_py_iter _ _ _ Hiter Hx) as Hle.
    destruct expr; simpl in Hget; try discriminate.
    destruct (dict_get k d) as [v|] eqn:Hk; [| discriminate].
    injection Hget as ->. apply depth_dict_get in Hk. lia. }
  simpl. destruct expr as [| b | n | s | l | d]; try (by eauto).
  all: destruct (py_in "allOf" _) as [[|]|e]; [| | by eauto].
  all: try (destruct (getitem _ "allOf") as [sub|e] eqn:Hget; simpl;
            [| by eauto];
            destruct (py_iter sub) as [items|e] eqn:Hiter; [| by eauto];
            apply py_all_is_Some; by eapply Hsub).
  all: destruct (py_in "anyOf" _) as [[|]|e]; [| by eauto | by eauto].
  all: destruct (getitem _ "anyOf") as [sub|e] eqn:Hget; simpl;
       [| by eauto];
       destruct (py_iter sub) as [items|e] eqn:Hiter; [| by eauto];
       apply py_any_is_Some; by eapply Hsub.
Qed.

Lemma evaluate_condition_fuel_enough expr criteria :
  evaluate_condition_fuel (depth expr + 2) expr criteria
  = Some (evaluate_condition expr criteria).
Proof.
  unfold evaluate_condition.
  destruct (evaluate_condition_fuel_is_Some (depth expr + 2) expr criteria
              ltac:(lia)) as [r ->].
  reflexivity.
Qed.

Lemma py_all_mono (f g : json → option (result bool)) items r :
  (∀ x r, x ∈ items → f x = Some r → g x = Some r) →
  py_all f items = Some r → py_all g items = Some r.
Proof.
  induction items as [|x l IH]; simpl; intros Hfg; [done |].
  destruct (f x) as [[[|]|e]|] eqn:Hf; try discriminate;
    rewrite (Hfg x _ ltac:(left) Hf); try done.
  apply IH. intros y ry Hy. apply Hfg. by right.
Qed.

Lemma py_any_mono (f g : json → option (result bool)) items r :
  (∀ x r, x ∈ items → f x = Some r → g x = Some r) →
  py_any f items = Some r → py_any g items = Some r.
Proof.
  induction items as [|x l IH]; simpl; intros Hfg; [done |].
  destruct (f x) as [[[|]|e]|] eqn:Hf; try discriminate;
    rewrite (Hfg x _ ltac:(left) Hf); try done.
  apply IH. intros y ry Hy. apply Hfg. by right.
Qed.

(** A result does not depend on the fuel that produced it. *)
Lemma evaluate_condition_fuel_mono fuel : ∀ fuel' expr criteria r,
  (fuel ≤ fuel')%nat →
  evaluate_condition_fuel fuel expr criteria = Some r →
  evaluate_condition_fuel fuel' expr criteria = Some r.
Proof.
  induction fuel as [|fuel IH]; intros fuel' expr criteria r Hle;
    [discriminate |].
  destruct fuel' as [|fuel']; [lia |]. simpl.
  destruct expr as [| b | n | s | l | d]; try done.
  all: destruct (py_in "allOf" _) as [[|]|e]; try done.
  all: try (destruct (getitem _ "allOf" ≫= py_iter) as [items|e]; try done;
            apply py_all_mono; intros x rx _; apply IH; lia).
  all: destruct (py_in "anyOf" _) as [[|]|e]; try done.
  all: destruct (getitem _ "anyOf" ≫= py_iter) as [items|e]; try done;
       apply py_any_mono; intros x rx _; apply IH; lia.
Qed.

(** [evaluate_condition] is the result at any sufficient fuel. *)
Lemma evaluate_condition_fuel_any fuel expr criteria :
  (depth expr < fuel)%nat →
  evaluate_condition_fuel fuel expr criteria
  = Some (evaluate_condition expr criteria).
Proof.
  intros Hd.
  destruct (evaluate_condition_fuel_is_Some fuel expr criteria Hd) as [r Hr].
  rewrite Hr. f_equal.
  pose proof (evaluate_condition_fuel_enough expr criteria) as He.
  destruct (Nat.le_ge_cases fuel (depth expr + 2)).
  - rewrite (evaluate_condition_fuel_mono _ _ _ _ _ H Hr) in He. congruence.
  - rewrite (evaluate_condition_fuel_mono _ _ _ _ _ H He) in Hr. congruence.
Qed.

(** ** Grids written with commas convert as C4 says *)

#[local] Arguments String.append !_ _ / : simpl nomatch.

Lemma append_assoc (a b c : string) : (a +:+ b) +:+ c = a +:+ (b +:+ c).
Proof. induction a as [|x a IH]; simpl; [reflexivity | by rewrite IH]. Qed.

Lemma append_nil_r (a : string) : a +:+ EmptyString = a.
Proof. induction a as [|x a IH]; simpl; [reflexivity | by rewrite IH]. Qed.

Lemma matches_Alt s : ∀ r1 r2,
  matches (Alt r1 r2) s = matches r1 s || matches r2 s.
Proof. induction s as [|c s IH]; intros r1 r2; simpl; [reflexivity | apply IH]. Qed.

Lemma matches_Cat_nullable r1 r2 s :
  nullable r1 = true → matches r2 s = true → matches (Cat r1 r2) s = true.
Proof.
  intros Hn Hm. destruct s as [|c s]; simpl in *.
  - by rewrite Hn, Hm.
  - rewrite Hn, matches_Alt, Hm. apply orb_true_r.
Qed.

(** The derivative matcher accepts a concatenation of accepted strings. *)
Lemma matches_Cat s1 : ∀ r1 r2 s2,
  matches r1 s1 = true → matches r2 s2 = true →
  matches (Cat r1 r2) (s1 +:+ s2) = true.
Proof.
  induction s1 as [|c s1 IH]; intros r1 r2 s2 H1 H2; simpl in *.
  - by apply matches_Cat_nullable.
  - destruct (nullable r1).
    + rewrite matches_Alt, (IH _ _ _ H1 H2). reflexivity.
    + by apply IH.
Qed.

Lemma split_no_sep sep s : has_char sep s = false → split sep s = [s].
Proof.
  induction s as [|c s IH]; simpl; [reflexivity |].
  intros Hc. apply orb_false_iff in Hc as [Hc Hs].
  rewrite Hc, (IH Hs). reflexivity.
Qed.

Lemma split_app_sep sep s rest :
  has_char sep s = false →
  split sep (s +:+ String sep rest) = s :: split sep rest.
Proof.
  induction s as [|c s IH]; simpl.
  - intros _. by rewrite Ascii.eqb_refl.
  - intros Hc. apply orb_false_iff in Hc as [Hc Hs].
    rewrite Hc, (IH Hs). reflexivity.
Qed.

(** [sep.join(l).split(sep)] gives [l] back when no piece holds [sep]. *)
Lemma split_join sep l :
  l ≠ [] → Forall (fun s => has_char sep s = false) l →
  split sep (join (String sep EmptyString) l) = l.
Proof.
  induction l as [|x l IH]; [done |]. intros _ Hl.
  apply Forall_cons in Hl as [Hx Hl]. unfold join in *.
  destruct l as [|y l]; simpl.
  - by apply split_no_sep.
  - rewrite (split_app_sep sep x _ Hx). f_equal. by apply IH.
Qed.

Lemma slot_wf_all_slots s : slot_wf s → s ∈ all_slots.
Proof.
  unfold all_slots. intros Hwf. apply elem_of_app.
  destruct s as [[|] | hour pad minute].
  - left. left.
  - left. right. left.
  - destruct Hwf as [Hh Hm]. right.
    apply list_elem_of_bind. exists hour.
    split; [| apply elem_of_seq; lia].
    apply list_elem_of_bind. exists pad.
    split; [| destruct pad; [right; left | left]].
    apply list_elem_of_bind. exists minute.
    split; [left |].
    destruct minute as [m|]; [right | left].
    destruct Hm as [Hlt Hmod]. apply list_elem_of_fmap.
    exists (m / 5)%nat. split.
    + f_equal. pose proof (Nat.div_mod_eq m 5). lia.
    + apply elem_of_seq. split; [lia |].
      apply Nat.Div0.div_lt_upper_bound. lia.
Qed.

Lemma all_slots_check : forallb slot_check all_slots = true.
Proof. vm_compute. reflexivity. Qed.

Lemma slot_wf_check s : slot_wf s → slot_check s = true.
Proof.
  intros Hwf. apply slot_wf_all_slots, list_elem_of_In in Hwf.
  pose proof all_slots_check as Hall.
  rewrite forallb_forall in Hall. by apply Hall.
Qed.

Lemma append_sep (x : string) c acc :
  x +:+ String c acc = (x +:+ String c EmptyString) +:+ acc.
Proof. by rewrite append_assoc. Qed.

Lemma matches_rep_trail r l :
  Forall (fun s => matches r s = true) l →
  matches (Rep (length l) (Cat r (OneOf ",/")))
          (foldr (fun s acc => s +:+ "," +:+ acc) EmptyString l) = true.
Proof.
  induction 1 as [|x l Hx _ IH]; simpl; [reflexivity |].
  rewrite append_sep. apply matches_Cat; [| exact IH].
  apply matches_Cat; [exact Hx | reflexivity].
Qed.

Lemma join_trail l last :
  join "," (l ++ [last])%list
  = foldr (fun s acc => s +:+ "," +:+ acc) EmptyString l +:+ last.
Proof.
  unfold join. induction l as [|x l IH]; [reflexivity |].
  assert (Hcons : String.concat "," ((x :: l) ++ [last])%list
                  = x +:+ "," +:+ String.concat "," (l ++ [last])%list)
    by (destruct l; reflexivity).
  rewrite Hcons, IH. simpl foldr. by rewrite !append_assoc.
Qed.

Lemma week_of_seven {A} (week : list A) :
  length week = 7%nat → ∃ init last, week = (init ++ [last])%list
                                     ∧ length init = 6%nat.
Proof.
  intros Hlen.
  destruct week as [|s0 [|s1 [|s2 [|s3 [|s4 [|s5 [|s6 [|]]]]]]]];
    try discriminate.
  by exists [s0; s1; s2; s3; s4; s5], s6.
Qed.

(** A grid of seven well-formed slots is a valid schedule value. *)
Lemma render_grid_valid week :
  length week = 7%nat → Forall slot_wf week →
  is_valid_schedule_value (render_grid week) = true.
Proof.
  intros Hlen Hwf.
  assert (Hm : Forall (fun s => matches (Cat HOUR MINUTE) s = true)
                      (render <$> week)).
  { apply Forall_fmap. eapply Forall_impl; [exact Hwf |].
    intros s Hs. apply slot_wf_check in Hs. unfold slot_check in Hs.
    apply andb_true_iff in Hs as [Hs _].
    by apply andb_true_iff in Hs as [_ Hs]. }
  destruct (week_of_seven (render <$> week)) as (init & last & Heq & Hinit);
    [by rewrite length_fmap |].
  unfold is_valid_schedule_value, re_match, render_grid.
  rewrite Heq in Hm |- *. apply Forall_app in Hm as [Hi Hl].
  rewrite Forall_singleton in Hl.
  rewrite join_trail, <- (append_nil_r (_ +:+ last)).
  apply matches_Cat; [| reflexivity].
  unfold TIME_SCHEDULE_PATTERN. apply matches_Cat; [| exact Hl].
  rewrite <- Hinit. by apply matches_rep_trail.
Qed.

(** The slot-reading steps, inside [convert_time_schedule_to_cron]. *)
Lemma convert_time_schedule_to_cron_read schedule_string current_day day_time :
  is_valid_schedule_value schedule_string = true →
  split "," schedule_string !! current_day = Some day_time →
  convert_time_schedule_to_cron schedule_string current_day
  = match read_day_time day_time with
    | Ok slot =>
        Ok (option_map
              (fun '(minute, hour) =>
                 str minute +:+ " " +:+ str hour +:+ " * * "
                 +:+ str ((Z.of_nat current_day + 1) mod 7)) slot)
    | Raise e => Raise e
    end.
Proof.
  intros Hvalid Hday. unfold convert_time_schedule_to_cron, read_day_time.
  unfold is_valid_schedule_value in Hvalid. rewrite Hvalid. simpl negb.
  cbv iota. apply index_Ok in Hday. rewrite Hday. simpl.
  destruct (String.eqb day_time "-" || String.eqb day_time "*");
    [reflexivity |].
  destruct (index (split ":" day_time) 0) as [p0|e]; simpl; [| reflexivity].
  destruct (int p0) as [hour|e]; simpl; [| reflexivity].
  destruct (1 <? length (split ":" day_time))%nat; simpl; [| reflexivity].
  destruct (index (split ":" day_time) 1) as [p1|e]; simpl; [| reflexivity].
  destruct (int p1) as [minute|e]; reflexivity.
Qed.

(** The part of C4 that the code keeps: for a week of seven well-formed
    slots written with commas, the grid is a valid schedule value and the
    conversion on weekday [current_day] gives no cron for [-] and [*], and
    otherwise ["minute hour * * ((current_day + 1) mod 7)"]. *)
Lemma convert_comma_grid week current_day s :
  length week = 7%nat → Forall slot_wf week →
  week !! current_day = Some s →
  is_valid_schedule_value (render_grid week) = true
  ∧ convert_time_schedule_to_cron (render_grid week) current_day
    = Ok (slot_cron s current_day).
Proof.
  intros Hlen Hwf Hs.
  pose proof (render_grid_valid week Hlen Hwf) as Hvalid.
  split; [exact Hvalid |].
  assert (Hsplit : split "," (render_grid week) = render <$> week).
  { apply split_join.
    - destruct week; [discriminate | done].
    - apply Forall_fmap. eapply Forall_impl; [exact Hwf |].
      intros s' Hs'. apply slot_wf_check in Hs'. unfold slot_check in Hs'.
      apply andb_true_iff in Hs' as [Hs' _].
      apply andb_true_iff in Hs' as [Hs' _].
      by apply negb_true_iff in Hs'. }
  rewrite (convert_time_schedule_to_cron_read _ _ (render s) Hvalid).
  2: { rewrite Hsplit, list_lookup_fmap, Hs. reflexivity. }
  rewrite Forall_forall in Hwf.
  pose proof (slot_wf_check s (Hwf s (list_elem_of_lookup_2 _ _ _ Hs))) as Hc.
  unfold slot_check in Hc. apply andb_true_iff in Hc as [_ Hc].
  destruct (read_day_time (render s)) as [[[minute hour]|]|e];
    destruct s as [star | h pad m]; try discriminate; simpl.
  - apply andb_true_iff in Hc as [Hm Hh].
    apply Z.eqb_eq in Hm, Hh. subst minute hour. reflexivity.
  - reflexivity.
Qed.

Example convert_comma_grid_week :
  convert_time_schedule_to_cron "08:30,8,23:55,7,17,-,*" 2
  = Ok (Some "55 23 * * 3").
Proof.
  apply (convert_comma_grid
           [ At 8 true (Some 30); At 8 false None; At 23 false (Some 55);
             At 7 false None; At 17 false None; NoAction false;
             NoAction true ] 2 (At 23 false (Some 55)));
    [reflexivity | | reflexivity].
  repeat constructor; simpl; lia.
Qed.

(** ** What the alert matcher returns *)

(** The leaf comparison ignores case on both sides. *)
Lemma criteria_equals_casefold v equals :
  criteria_equals (Some v) (casefold equals) = true
  ↔ v ≠ EmptyString ∧ casefold v = casefold equals.
Proof.
  unfold criteria_equals. destruct (String.eqb_spec v EmptyString) as [-> | Hv];
    simpl.
  - split; [discriminate | intros [[] _]; reflexivity].
  - rewrite String.eqb_eq. tauto.
Qed.

(** For scopes that are a list of strings, the scope test compares the
    folded resource id with each scope as it is written. *)
Lemma scope_matches_strings rid alert scopes :
  dict_get "scopes" (rgi_properties alert) = Some (JList (JStr <$> scopes)) →
  scope_matches rid alert
  = Ok (existsb (startswith (casefold rid)) scopes).
Proof.
  intros Hs. unfold scope_matches. rewrite Hs. simpl.
  assert (Hmap : mapM (M := result)
            (fun scope => match scope with
                          | JStr scope => Ok (startswith (casefold rid) scope)
                          | _ => Raise TypeError
                          end) (JStr <$> scopes)
          = Ok (startswith (casefold rid) <$> scopes)).
  { clear Hs. induction scopes as [|scope scopes IH]; [reflexivity |].
    rewrite fmap_cons. cbn [mapM]. rewrite IH. reflexivity. }
  rewrite Hmap. simpl. f_equal. clear Hs Hmap.
  induction scopes as [|scope scopes IH]; [reflexivity |].
  rewrite fmap_cons. simpl existsb. by rewrite IH.
Qed.

(** When the call returns, it returns the ids of exactly the alerts whose
    scope test and condition test are both true, in the order of the
    input. *)
Lemma find_matching_alert_ids_Ok rid rt alerts ids :
  find_matching_alert_ids rid rt alerts = Ok ids →
  ids = rgi_id <$> List.filter (alert_matches rid rt) alerts.
Proof.
  revert ids. induction alerts as [|alert rest IH]; simpl; intros ids.
  - intros Heq. by injection Heq as <-.
  - unfold alert_matches.
    destruct (scope_matches rid alert) as [[|]|e]; simpl; try discriminate.
    + destruct (condition_matches rid rt alert) as [[|]|e]; simpl;
        try discriminate;
        destruct (find_matching_alert_ids rid rt rest) as [ids'|e]; simpl;
        try discriminate; intros Heq; injection Heq as <-;
        by rewrite (IH ids' eq_refl).
    + destruct (find_matching_alert_ids rid rt rest) as [ids'|e]; simpl;
        try discriminate; intros Heq; injection Heq as <-;
        by rewrite (IH ids' eq_refl).
Qed.

(** A condition that holds neither combinator and is not a leaf of the two
    non-empty keys [field] and [equals] (a list, a string, a dict of
    another shape) is unparsable, and the alert is not matched. *)
Lemma condition_matches_unparsable rid rt alert expr rg :
  dict_get "condition" (rgi_properties alert) = Some expr →
  get_resource_group rid = Ok rg →
  py_in "allOf" expr = Ok false → py_in "anyOf" expr = Ok false →
  (∀ d, expr = JDict d →
        length (dict_keys d) ≠ 2%nat
        ∨ truthy (default JNull (dict_get "field" d)) = false
        ∨ truthy (default JNull (dict_get "equals" d)) = false) →
  condition_matches rid rt alert = Ok false.
Proof.
  intros Hc Hrg Hall Hany Hshape. unfold condition_matches.
  unfold get_resource_group in Hrg. rewrite Hc, Hrg.
  assert (Heval : ∀ criteria,
            evaluate_condition expr criteria = Raise UnparsableCondition).
  { intros criteria. unfold evaluate_condition.
    replace (depth expr + 2)%nat with (S (depth expr + 1)) by lia.
    cbn [evaluate_condition_fuel]. rewrite Hall, Hany.
    destruct expr as [| b | n | s | l | d]; try discriminate; try reflexivity.
    unfold eval_dict.
    destruct (Hshape d eq_refl) as [Hk | [Hf | He]].
    - apply Nat.eqb_neq in Hk. rewrite Hk. reflexivity.
    - rewrite Hf, orb_true_r. reflexivity.
    - rewrite He, orb_true_r. reflexivity. }
  destruct expr; try discriminate; simpl; rewrite Heval; reflexivity.
Qed.

(** The example of the specification: the condition on group [RG1] and the
    virtual-machine type matches a machine in [rg1], whatever the case, and
    no machine of another group. *)
Example condition_matcher_example :
  let condition :=
    JDict [("allOf",
            JList [ JDict [("field", JStr "resourceGroup");
                           ("equals", JStr "RG1")];
                    JDict [("field", JStr "resourceType");
                           ("equals", JStr "microsoft.compute/virtualmachines")] ])] in
  let alerts :=
    [ Samples.alert "alert1"
        [("scopes", JList [JStr "/subscriptions/s1"]);
         ("condition", condition)] ] in
  find_matching_alert_ids Samples.vm1
    (Some "Microsoft.Compute/virtualMachines") alerts = Ok ["alert1"]
  ∧ find_matching_alert_ids
      "/subscriptions/s1/resourceGroups/rg2/providers/Microsoft.Compute/virtualMachines/vm2"
      (Some "Microsoft.Compute/virtualMachines") alerts = Ok []
  ∧ find_matching_alert_ids Samples.vm1 (Some "Microsoft.Compute") alerts
    = Ok [].
Proof. repeat split; vm_compute; reflexivity. Qed.

(** * Further properties *)

(** ** The handler of power actions, over all four actions *)

(** Splits a goal about [handle_powermgmt_event_with_deferred_wait] along
    the action of the event, the state of the resource, its status tag, its
    type and the alert ids, and leaves the trace of each case explicit. *)
Ltac handle_cases event env m Hres :=
  unfold handle_powermgmt_event_with_deferred_wait; rewrite Hres; simpl;
  destruct (String.eqb_spec (pa_action event) RESOURCE_ACTION_START)
    as [Hstart | Hstart];
  [| destruct (String.eqb_spec (pa_action event)
                 RESOURCE_ACTION_START_PRE_UPDATES) as [Hpre | Hpre];
     [| destruct (String.eqb_spec (pa_action event) RESOURCE_ACTION_STOP)
          as [Hstop | Hstop];
        [| destruct (String.eqb_spec (pa_action event)
                       RESOURCE_ACTION_STOP_POST_UPDATES) as [Hpost | Hpost] ] ] ];
  destruct (in_startable_state m (he_resource env)) eqn:Hstartable;
  destruct (in_stoppable_state m (he_resource env)) eqn:Hstoppable;
  destruct (str_in (powermgmt_status (he_resource env))
              RESOURCE_TAGVALS_IN_MAINTENANCE_WINDOW) eqn:Hmaint;
  destruct (str_in (powermgmt_status (he_resource env))
              [ RESOURCE_TAGVAL_IN_MAINTENANCE_STOP_PENDING;
                RESOURCE_TAGVAL_STARTED_FOR_MAINTENANCE ]) eqn:Hpending;
  simpl;
  repeat case_bool_decide;
  destruct (pa_alert_ids event) as [|alert_id alert_ids] eqn:Hids;
  unfold nonempty, suppress_alerts; simpl.



(** X2.  Alerts are silenced exactly by a [stop] or [stop_post_updates]
    action that carries alert ids, as the first call of the handler and
    whether or not a stop is issued afterwards; the handler never switches
    the alerts on again. *)
Theorem handle_suppresses_alerts env event m rg effects :
  resolve (pa_id event) (pa_sub_type event) = Ok (m, rg) →
  handle_powermgmt_event_with_deferred_wait env event = Ok effects →
  (alerts_suppressed effects = true ↔
   pa_action event ∈ [RESOURCE_ACTION_STOP; RESOURCE_ACTION_STOP_POST_UPDATES]
   ∧ pa_alert_ids event ≠ [])
  ∧ (alerts_suppressed effects = true →
     ∃ rest, effects = suppress_alerts (he_resource env) rg true :: rest
             ∧ alerts_suppressed rest = false)
  ∧ alerts_reenabled effects = false.
Proof.
  intros Hres. handle_cases event env m Hres.
  all: intros Heff; try discriminate Heff; injection Heff as <-; simpl.
  all: split;
    [ split;
      [ intros Hc; first [discriminate Hc | split; [set_solver | discriminate]]
      | intros [Hin Hne];
        first [ reflexivity
              | by elim Hne
              | exfalso; rewrite ?Hstart, ?Hpre in Hin;
                apply list_elem_of_In in Hin; simpl in Hin;
                intuition discriminate ] ]
    | ].
  all: split; [| reflexivity].
  all: intros Hc; first [discriminate Hc | eexists; split; reflexivity].
Qed.

(** A stop for a machine that is not running silences the alerts all the
    same. *)
Lemma handle_suppresses_alerts_witness :
  ∃ effects,
    handle_powermgmt_event_with_deferred_wait
      (MoreSamples.handle_env Samples.vm1 "deallocated" RESOURCE_TAGVAL_STOP)
      (MoreSamples.power_action Samples.vm1 RESOURCE_ACTION_STOP ["alert1"])
    = Ok effects
    ∧ alerts_suppressed effects = true
    ∧ stop_issued effects = false.
Proof.
  destruct (handle_powermgmt_event_with_deferred_wait
              (MoreSamples.handle_env Samples.vm1 "deallocated"
                 RESOURCE_TAGVAL_STOP)
              (MoreSamples.power_action Samples.vm1 RESOURCE_ACTION_STOP
                 ["alert1"])) as [effects|e] eqn:Heff;
    [| vm_compute in Heff; discriminate].
  destruct (handle_suppresses_alerts
              (MoreSamples.handle_env Samples.vm1 "deallocated"
                 RESOURCE_TAGVAL_STOP)
              (MoreSamples.power_action Samples.vm1 RESOURCE_ACTION_STOP
                 ["alert1"])
              VMManager "rg1" effects ltac:(vm_compute; reflexivity) Heff)
    as (Hiff & _ & _).
  exists effects. split; [reflexivity |]. split.
  - apply Hiff. split; [left | discriminate].
  - vm_compute in Heff. injection Heff as <-. reflexivity.
Defined.

(** ** The deferred check, for every answer of the provider *)

Lemma poll_call_inv action rid token poll :
  poll_call action rid token = Ok poll →
  (poll = PollStop rid token ∨ poll = PollStart rid token)
  ∧ action ∈ POLL_ACTIONS.
Proof.
  unfold poll_call, POLL_ACTIONS.
  destruct (String.eqb_spec action RESOURCE_ACTION_STOP) as [-> | _];
    [intros Heq; injection Heq as <-; split; [auto | set_solver] |].
  destruct (String.eqb_spec action RESOURCE_ACTION_STOP_POST_UPDATES)
    as [-> | _];
    [intros Heq; injection Heq as <-; split; [auto | set_solver] |].
  destruct (String.eqb_spec action RESOURCE_ACTION_START) as [-> | _];
    [intros Heq; injection Heq as <-; split; [auto | set_solver] |].
  destruct (String.eqb_spec action RESOURCE_ACTION_START_PRE_UPDATES)
    as [-> | _];
    [intros Heq; injection Heq as <-; split; [auto | set_solver] |].
  discriminate.
Qed.

(** Splits a hypothesis [check_powermgmt_status env event = Ok effects]
    along the answer of the provider, the tag write, the retry counter,
    the action and the alert ids, and makes the trace explicit. *)
Ltac check_cases env event Heff :=
  unfold check_powermgmt_status in Heff;
  destruct (resolve (dc_id event) (dc_sub_type event)) as [[m rg] | ?];
  simpl in Heff; [| discriminate Heff];
  destruct (poll_call (dc_action event) (res_id (ce_resource env))
              (dc_continuation_token event)) as [poll | ?] eqn:Hpoll;
  simpl in Heff; [| discriminate Heff];
  apply poll_call_inv in Hpoll as [[-> | ->] Haction];
  destruct (catch (ce_poll env) HttpResponseError (Ok "failed"))
    as [r | ?] eqn:Hcatch;
  simpl in Heff; [| discriminate Heff | | discriminate Heff];
  (destruct (String.eqb_spec r "succeeded") as [-> | Hsucc];
   [| destruct (String.eqb_spec r "inprogress") as [-> | Hinpr]]);
  simpl in Heff;
  destruct (bool_decide (dc_tag_text event = Some EmptyString)) eqn:Htext;
  destruct (ce_add_tags env) eqn:Hadd;
  simpl in Heff;
  repeat match goal with
         | Hne : ?a ≠ ?b |- _ =>
             rewrite (proj2 (String.eqb_neq a b) Hne) in Heff
         end;
  simpl in Heff;
  destruct (dc_wait_retries event + 1 <? DEFERRED_CHECK_MAX_RETRIES)%Z
    eqn:Hretry;
  destruct (String.eqb (dc_action event) RESOURCE_ACTION_START) eqn:Hstart;
  destruct (dc_alert_ids event) as [|alert_id alert_ids] eqn:Hids;
  unfold nonempty, suppress_alerts in Heff; simpl in Heff;
  injection Heff as <-.

(** X3.  Every evaluation of a deferred check that returns logs one
    record.  The check is put back on the queue exactly
    when the record says "inprogress"; what is put back is the same check
    with the retry counter one higher, and that counter is below 10.  A tag
    is written only after a poll that reports "succeeded", and then it is
    the pending tag text of the check. *)
Theorem check_requeues_iff_inprogress env event effects :
  check_powermgmt_status env event = Ok effects →
  ((∃ result, log_records effects = [(result, dc_wait_retries event)]
             ∧ result ≠ "inprogress" ∧ enqueued_checks effects = [])
  ∨ (log_records effects = [("inprogress", dc_wait_retries event + 1)%Z]
     ∧ enqueued_checks effects = [bump_wait_retries event]
     ∧ (dc_wait_retries event + 1 < DEFERRED_CHECK_MAX_RETRIES)%Z)
  ∨ (log_records effects = [("timeout", dc_wait_retries event + 1)%Z]
     ∧ enqueued_checks effects = []
     ∧ (DEFERRED_CHECK_MAX_RETRIES ≤ dc_wait_retries event + 1)%Z))
  ∧ (tags_written effects = []
     ∨ (tags_written effects = [dc_tag_text event]
        ∧ dc_tag_text event ≠ Some EmptyString
        ∧ ce_poll env = Ok "succeeded")).
Proof.
  intros Heff. check_cases env event Heff.
  all: simpl.
  all: split;
    [| first
         [ left; reflexivity
         | right; split; [reflexivity |];
           split; [by apply bool_decide_eq_false in Htext |];
           apply catch_http_Ok in Hcatch as [Hok | [_ Hno]];
           [exact Hok | discriminate Hno] ] ].
  all: first
    [ left; eexists; split; [reflexivity |];
      split; [first [assumption | discriminate] | reflexivity]
    | apply Z.ltb_lt in Hretry; right; left;
      split; [reflexivity |]; split; [reflexivity | exact Hretry]
    | apply Z.ltb_ge in Hretry; right; right;
      split; [reflexivity |]; split; [reflexivity | exact Hretry] ].
Qed.

(** The stop of a machine is still in progress at the retry counter 3. *)
Lemma check_requeues_iff_inprogress_witness :
  ∃ effects,
    check_powermgmt_status (Samples.poll_env "inprogress" true)
      (Samples.stop_check 3) = Ok effects
    ∧ enqueued_checks effects = [Samples.stop_check 4]
    ∧ tags_written effects = [].
Proof.
  destruct (check_powermgmt_status (Samples.poll_env "inprogress" true)
              (Samples.stop_check 3)) as [effects|e] eqn:Heff;
    [| vm_compute in Heff; discriminate].
  destruct (check_requeues_iff_inprogress
              (Samples.poll_env "inprogress" true) (Samples.stop_check 3)
              effects Heff) as [_ Htags].
  exists effects. split; [reflexivity |].
  vm_compute in Heff. injection Heff as <-. split; reflexivity.
Defined.

(** What [nth_evaluation] reads from a trace: the check that was put back
    is the same check with the counter one higher, below the bound. *)
Lemma check_enqueued_inv env event effects check :
  check_powermgmt_status env event = Ok effects →
  enqueued effects = Some check →
  check = bump_wait_retries event
  ∧ (dc_wait_retries event + 1 < DEFERRED_CHECK_MAX_RETRIES)%Z.
Proof.
  intros Heff. check_cases env event Heff.
  all: simpl; intros Henq; try discriminate Henq.
  all: injection Henq as <-; apply Z.ltb_lt in Hretry; auto.
Qed.

Lemma polls_left_pos w : (1 ≤ polls_left w)%nat.
Proof. unfold polls_left. lia. Qed.

Lemma polls_left_bump w :
  (w + 1 < DEFERRED_CHECK_MAX_RETRIES)%Z →
  polls_left w = S (polls_left (w + 1)).
Proof. unfold polls_left, DEFERRED_CHECK_MAX_RETRIES. lia. Qed.

(** X4.  Whatever the provider answers, a chain of deferred checks ends:
    from the retry counter [w] no more than [max 1 (10 - w)] evaluations
    take place, ten from the counter 0. *)
Theorem chain_of_checks_ends n : ∀ envs event,
  (polls_left (dc_wait_retries event) < n)%nat →
  nth_evaluation envs n event = None.
Proof.
  induction n as [|n IH]; intros envs event Hn; [reflexivity |].
  destruct n as [|n].
  - pose proof (polls_left_pos (dc_wait_retries event)). lia.
  - rewrite nth_evaluation_SS.
    destruct (check_powermgmt_status (envs O) event) as [effects|e] eqn:Heff;
      [| reflexivity].
    destruct (enqueued effects) as [check|] eqn:Henq; [| reflexivity].
    destruct (check_enqueued_inv _ _ _ _ Heff Henq) as [-> Hlt].
    apply IH. simpl dc_wait_retries.
    rewrite (polls_left_bump _ Hlt) in Hn. lia.
Qed.

(** A provider that reports success at once: nothing is left to evaluate
    even the second time. *)
Lemma chain_of_checks_ends_witness :
  nth_evaluation (fun _ => Samples.poll_env "succeeded" true) 11
    (Samples.stop_check 0) = None
  ∧ nth_evaluation (fun _ => Samples.poll_env "inprogress" false) 11
      (Samples.stop_check 0) = None.
Proof.
  split; apply chain_of_checks_ends; vm_compute; lia.
Defined.

(** ** Polls through the managers *)

#[local] Arguments is_running : simpl never.

(** A poll whose answer is neither "succeeded" nor "inprogress" ends the
    check: the answer is logged and nothing else happens. *)
Lemma check_terminal env event m rg r :
  resolve (dc_id event) (dc_sub_type event) = Ok (m, rg) →
  dc_action event ∈ POLL_ACTIONS →
  catch (ce_poll env) HttpResponseError (Ok "failed") = Ok r →
  r ≠ "succeeded" → r ≠ "inprogress" →
  ∃ poll,
    check_powermgmt_status env event
    = Ok [poll; LogCheckPowerMgmtStatus r (dc_wait_retries event)]
    ∧ (poll = PollStop (res_id (ce_resource env)) (dc_continuation_token event)
       ∨ poll = PollStart (res_id (ce_resource env))
                  (dc_continuation_token event)).
Proof.
  intros Hres Hact Hcatch Hs Hi. unfold check_powermgmt_status.
  rewrite Hres. simpl.
  apply String.eqb_neq in Hs, Hi.
  destruct (poll_call_Ok _ (res_id (ce_resource env))
              (dc_continuation_token event) Hact) as [-> | ->];
    simpl; rewrite Hcatch; simpl; rewrite Hs; simpl; rewrite Hs, Hi;
    eexists; split; eauto.
Qed.

(** A poll that reports success, with the tag write going through. *)
Lemma check_succeeded env event m rg :
  resolve (dc_id event) (dc_sub_type event) = Ok (m, rg) →
  dc_action event ∈ POLL_ACTIONS →
  ce_poll env = Ok "succeeded" →
  dc_tag_text event = Some EmptyString ∨ ce_add_tags env = true →
  ∃ effects,
    check_powermgmt_status env event = Ok effects
    ∧ log_records effects = [("succeeded", dc_wait_retries event)]
    ∧ enqueued_checks effects = []
    ∧ tags_written effects
      = (if bool_decide (dc_tag_text event = Some EmptyString)
         then [] else [dc_tag_text event]).
Proof.
  intros Hres Hact Hpoll Htag. unfold check_powermgmt_status.
  rewrite Hres. simpl.
  destruct (poll_call_Ok _ (res_id (ce_resource env))
              (dc_continuation_token event) Hact) as [-> | ->];
    simpl; rewrite Hpoll; simpl.
  all: destruct (bool_decide (dc_tag_text event = Some EmptyString)) eqn:Ht;
    simpl;
    [| destruct Htag as [Htag | Htag];
       [apply bool_decide_eq_false in Ht; contradiction | rewrite Htag]];
    simpl.
  all: destruct (String.eqb (dc_action event) RESOURCE_ACTION_START);
    destruct (dc_alert_ids event); unfold nonempty, suppress_alerts; simpl;
    eexists; (split; [reflexivity |]); simpl; auto.
Qed.

Lemma provider_check_eq resource p add_tags event m rg :
  resolve (dc_id event) (dc_sub_type event) = Ok (m, rg) →
  provider_check resource p add_tags event
  = check_powermgmt_status
      {| ce_resource := resource;
         ce_poll :=
           if String.eqb (dc_action event) RESOURCE_ACTION_STOP
              || String.eqb (dc_action event) RESOURCE_ACTION_STOP_POST_UPDATES
           then manager_stop m resource p else manager_start m resource p;
         ce_add_tags := add_tags |} event.
Proof. intros Hres. unfold provider_check. rewrite Hres. reflexivity. Qed.




(** X6.  A poll that fails at the provider ends the check: the outcome is
    logged, "failure" for the stop of a PostgreSQL server (whose manager
    turns the error into that status) and "failed" otherwise, and the check
    writes no tag, changes no alert rule and is not put back on the queue.
    The one exception is the error "AnotherOperationInProgress" of a
    gateway or storage account, which is not meant here. *)
Theorem provider_failure_is_terminal resource p add_tags event m group :
  resolve (dc_id event) (dc_sub_type event) = Ok (m, group) →
  dc_action event ∈ POLL_ACTIONS →
  poller_result p = Raise HttpResponseError →
  (m = AppGatewayManager ∨ m = StorageAccountSFTPManager →
   p ≠ PollerResourceExistsError "AnotherOperationInProgress") →
  ∃ poll,
    provider_check resource p add_tags event
    = Ok [ poll;
           LogCheckPowerMgmtStatus
             (if bool_decide (m = PostgreSQLManager)
                 && (String.eqb (dc_action event) RESOURCE_ACTION_STOP
                     || String.eqb (dc_action event)
                                   RESOURCE_ACTION_STOP_POST_UPDATES)
              then "failure" else "failed")
             (dc_wait_retries event) ]
    ∧ (poll = PollStop (res_id resource) (dc_continuation_token event)
       ∨ poll = PollStart (res_id resource) (dc_continuation_token event)).
Proof.
  intros Hres Hact Hp Hretry.
  rewrite (provider_check_eq _ _ _ _ _ _ Hres).
  match goal with
  | |- context [check_powermgmt_status ?e event] => set (env := e)
  end.
  assert (Hcatch :
    catch (ce_poll env) HttpResponseError (Ok "failed")
    = Ok (if bool_decide (m = PostgreSQLManager)
             && (String.eqb (dc_action event) RESOURCE_ACTION_STOP
                 || String.eqb (dc_action event)
                               RESOURCE_ACTION_STOP_POST_UPDATES)
          then "failure" else "failed")).
  { subst env. simpl.
    destruct (String.eqb (dc_action event) RESOURCE_ACTION_STOP
              || String.eqb (dc_action event)
                            RESOURCE_ACTION_STOP_POST_UPDATES);
      destruct m; simpl; rewrite ?Hp; simpl; try reflexivity.
    all: destruct p as [s | | code]; simpl in *; try discriminate Hp;
      try reflexivity.
    all: destruct (String.eqb_spec code "AnotherOperationInProgress")
           as [-> | _]; [| reflexivity].
    all: exfalso; apply Hretry; auto. }
  destruct (check_terminal env event m group _ Hres Hact Hcatch)
    as (poll & Heff & Hpoll).
  - destruct (_ && _); discriminate.
  - destruct (_ && _); discriminate.
  - exists poll. split; [exact Heff | exact Hpoll].
Qed.

(** The stop of a PostgreSQL server whose poll fails. *)
Lemma provider_failure_is_terminal_witness :
  provider_check
    (MoreSamples.resource MoreSamples.pg1 "ready" RESOURCE_TAGVAL_START)
    PollerHttpResponseError true
    (MoreSamples.check MoreSamples.pg1 RESOURCE_ACTION_STOP "" [] 0)
  = Ok [ PollStop MoreSamples.pg1 "token";
         LogCheckPowerMgmtStatus "failure" 0 ].
Proof.
  destruct (provider_failure_is_terminal
              (MoreSamples.resource MoreSamples.pg1 "ready"
                 RESOURCE_TAGVAL_START)
              PollerHttpResponseError true
              (MoreSamples.check MoreSamples.pg1 RESOURCE_ACTION_STOP "" [] 0)
              PostgreSQLManager "rg1")
    as (poll & Heff & _).
  - vm_compute. reflexivity.
  - left.
  - reflexivity.
  - intros [Hm | Hm]; discriminate Hm.
  - rewrite Heff. vm_compute in Heff. injection Heff as <-. reflexivity.
Defined.

(** X7.  "AnotherOperationInProgress" from the poll of a gateway or a
    storage account leaves [check_powermgmt_status] as the retryable
    error: nothing is logged, no tag is written and the check is not put
    back on the queue by this evaluation. *)
Theorem another_operation_in_progress_raises
    resource add_tags event m group :
  resolve (dc_id event) (dc_sub_type event) = Ok (m, group) →
  dc_action event ∈ POLL_ACTIONS →
  m = AppGatewayManager ∨ m = StorageAccountSFTPManager →
  provider_check resource
    (PollerResourceExistsError "AnotherOperationInProgress") add_tags event
  = Raise PowerMgmtRetryableError.
Proof.
  intros Hres Hact Hm.
  rewrite (provider_check_eq _ _ _ _ _ _ Hres).
  unfold check_powermgmt_status. rewrite Hres. simpl.
  destruct (poll_call_Ok _ (res_id resource)
              (dc_continuation_token event) Hact) as [-> | ->]; simpl;
    destruct Hm as [-> | ->];
    destruct (String.eqb (dc_action event) RESOURCE_ACTION_STOP
              || String.eqb (dc_action event)
                            RESOURCE_ACTION_STOP_POST_UPDATES);
    reflexivity.
Qed.

(** The stop of a gateway that is busy with another operation. *)
Lemma another_operation_in_progress_raises_witness :
  provider_check
    (MoreSamples.resource MoreSamples.agw1 "running" RESOURCE_TAGVAL_START)
    (PollerResourceExistsError "AnotherOperationInProgress") true
    (MoreSamples.check MoreSamples.agw1 RESOURCE_ACTION_STOP "" [] 0)
  = Raise PowerMgmtRetryableError.
Proof.
  apply (another_operation_in_progress_raises _ _ _ AppGatewayManager "rg1").
  - vm_compute. reflexivity.
  - left.
  - left. reflexivity.
Defined.

(** ** Status tags around a stop *)

(** A check without pending tag text never writes a tag. *)
Lemma check_no_pending_tag env event effects :
  dc_tag_text event = Some EmptyString →
  check_powermgmt_status env event = Ok effects →
  tags_written effects = [].
Proof.
  intros Hempty Heff. check_cases env event Heff.
  all: try reflexivity.
  all: apply bool_decide_eq_false in Htext; contradiction.
Qed.

(** X8.  A scheduled stop outside a maintenance window, by resource type:
    for a PostgreSQL flexible server the status "Auto-stopped" is written
    before the stop call and the deferred check carries no tag text; for an
    application gateway no tag is written, neither by the handler nor by
    any later evaluation of the deferred check; for every other type the
    handler writes no tag and the deferred check carries "Auto-stopped". *)
Theorem stop_tags_by_resource_type env event m group :
  pa_action event = RESOURCE_ACTION_STOP →
  resolve (pa_id event) (pa_sub_type event) = Ok (m, group) →
  in_stoppable_state m (he_resource env) = true →
  powermgmt_status (he_resource env)
  ∉ RESOURCE_TAGVALS_IN_MAINTENANCE_WINDOW →
  let rid := res_id (he_resource env) in
  let resource_type := get_resource_type rid in
  ∃ pre check,
    handle_powermgmt_event_with_deferred_wait env event
    = Ok (pre ++ [StopCall rid "scheduled"; EnqueueDeferredCheck check])%list
    ∧ stop_issued pre = false
    ∧ (resource_type = Some "microsoft.dbforpostgresql/flexibleservers" →
       tags_written pre = [Some RESOURCE_TAGVAL_STOP]
       ∧ dc_tag_text check = Some EmptyString)
    ∧ (resource_type = Some "microsoft.network/applicationgateways" →
       tags_written pre = [] ∧ dc_tag_text check = Some EmptyString)
    ∧ (resource_type ≠ Some "microsoft.dbforpostgresql/flexibleservers" →
       resource_type ≠ Some "microsoft.network/applicationgateways" →
       tags_written pre = []
       ∧ dc_tag_text check = Some RESOURCE_TAGVAL_STOP)
    ∧ (dc_tag_text check = Some EmptyString →
       ∀ cenv effects,
         check_powermgmt_status cenv check = Ok effects →
         tags_written effects = []).
Proof.
  intros Hact Hres Hstop Hmaint rid resource_type.
  unfold handle_powermgmt_event_with_deferred_wait.
  rewrite Hres, Hact. simpl. rewrite Hstop.
  apply str_in_false in Hmaint. rewrite Hmaint. simpl.
  fold rid. fold resource_type.
  repeat case_bool_decide.
  all: match goal with
       | |- context [(?s ++ ?l)%list] =>
           match l with
           | [AddTags ?a ?b; ?c; EnqueueDeferredCheck ?d] =>
               exists (s ++ [AddTags a b])%list, d;
               rewrite <- (app_assoc s [AddTags a b])
           | [StopCall ?a ?b; EnqueueDeferredCheck ?d] => exists s, d
           end
       end.
  all: split; [reflexivity |].
  all: destruct (pa_alert_ids event); unfold nonempty; simpl.
  all: split; [reflexivity |].
  all: repeat split; try congruence; try reflexivity.
  all: try (intros; eapply check_no_pending_tag; [| eassumption]; reflexivity).
  all: intros Habs; discriminate Habs.
Qed.

(** The scheduled stop of a PostgreSQL server. *)
Lemma stop_tags_by_resource_type_witness :
  ∃ pre check,
    handle_powermgmt_event_with_deferred_wait
      (MoreSamples.handle_env MoreSamples.pg1 "ready" RESOURCE_TAGVAL_START)
      (MoreSamples.power_action MoreSamples.pg1 RESOURCE_ACTION_STOP [])
    = Ok (pre ++ [ StopCall MoreSamples.pg1 "scheduled";
                   EnqueueDeferredCheck check ])%list
    ∧ tags_written pre = [Some RESOURCE_TAGVAL_STOP]
    ∧ dc_tag_text check = Some EmptyString.
Proof.
  destruct (stop_tags_by_resource_type
              (MoreSamples.handle_env MoreSamples.pg1 "ready"
                 RESOURCE_TAGVAL_START)
              (MoreSamples.power_action MoreSamples.pg1 RESOURCE_ACTION_STOP [])
              PostgreSQLManager "rg1")
    as (pre & check & Heff & _ & Hpg & _).
  - reflexivity.
  - vm_compute. reflexivity.
  - vm_compute. reflexivity.
  - apply str_in_false. vm_compute. reflexivity.
  - exists pre, check. split; [exact Heff |].
    apply Hpg. vm_compute. reflexivity.
Defined.

(** ** The maintenance window, from its start to its end *)



(** ** Maintenance events *)

(** X10.  After the maintenance window, [process_updatemgmt_event] sends a
    [stop_post_updates] action for a machine that is not exempt and whose
    status tag is "In maintenance window (was stopped)"; for a machine
    whose status tag is "In maintenance window (stop pending)", the tag
    that a deferred stop leaves, or "In maintenance window", it sends
    nothing. *)
Theorem post_maintenance_action_by_status
    alerts resourceId vm now details ids :
  decode_resource_id resourceId = Ok details →
  find_matching_alert_ids (res_id vm) (details !! "type") alerts = Ok ids →
  truthy_str (tags vm !! RESOURCE_TAGKEY_POWERMGMT_EXEMPT) = false →
  (powermgmt_status vm = RESOURCE_TAGVAL_STARTED_FOR_MAINTENANCE →
   process_updatemgmt_resource alerts resourceId (Some vm) false now
   = Ok (Some (create_power_action (res_id vm)
                 RESOURCE_ACTION_STOP_POST_UPDATES ids None now)))
  ∧ (powermgmt_status vm
     ∈ [ RESOURCE_TAGVAL_IN_MAINTENANCE_STOP_PENDING;
         RESOURCE_TAGVAL_IN_MAINTENANCE ] →
     process_updatemgmt_resource alerts resourceId (Some vm) false now
     = Ok None).
Proof.
  intros Hd Hids Hex. unfold process_updatemgmt_resource.
  rewrite Hd. simpl. rewrite Hex. split.
  - intros Hs. rewrite Hs, Hids.
    replace (contains RESOURCE_TAGVAL_STARTED_FOR_MAINTENANCE
               RESOURCE_TAGVAL_STARTED_FOR_MAINTENANCE)
      with true by (vm_compute; reflexivity).
    reflexivity.
  - intros Hs. apply list_elem_of_In in Hs. simpl in Hs.
    destruct Hs as [<- | [<- | []]].
    + replace (contains RESOURCE_TAGVAL_STARTED_FOR_MAINTENANCE
                 RESOURCE_TAGVAL_IN_MAINTENANCE_STOP_PENDING)
        with false by (vm_compute; reflexivity).
      reflexivity.
    + replace (contains RESOURCE_TAGVAL_STARTED_FOR_MAINTENANCE
                 RESOURCE_TAGVAL_IN_MAINTENANCE)
        with false by (vm_compute; reflexivity).
      reflexivity.
Qed.

(** A machine whose stop was deferred during the window. *)
Lemma post_maintenance_action_by_status_witness :
  process_updatemgmt_resource [] Samples.vm1
    (Some (Samples.running_vm RESOURCE_TAGVAL_IN_MAINTENANCE_STOP_PENDING))
    false 0 = Ok None.
Proof.
  destruct (decode_resource_id_Ok Samples.vm1 ltac:(vm_compute; lia))
    as (details & ns & Hd & _).
  apply (proj2 (post_maintenance_action_by_status [] Samples.vm1
                  (Samples.running_vm
                     RESOURCE_TAGVAL_IN_MAINTENANCE_STOP_PENDING)
                  0 details [] Hd eq_refl
                  ltac:(vm_compute; reflexivity))).
  apply list_elem_of_In. vm_compute. left. reflexivity.
Defined.

(** ** Actions that the handlers do not know *)

(** X11.  An action other than the four known ones makes the handler of
    power actions raise [AssertionError] and the deferred check raise
    [ValueError], in both cases before any call to the provider. *)
Theorem unknown_action_raises env cenv event check m group m' group' :
  resolve (pa_id event) (pa_sub_type event) = Ok (m, group) →
  resolve (dc_id check) (dc_sub_type check) = Ok (m', group') →
  pa_action event ∉ POLL_ACTIONS →
  dc_action check ∉ POLL_ACTIONS →
  handle_powermgmt_event_with_deferred_wait env event = Raise AssertionError
  ∧ check_powermgmt_status cenv check = Raise ValueError.
Proof.
  intros Hres1 Hres2 Hn1 Hn2. unfold POLL_ACTIONS in Hn1, Hn2.
  rewrite !not_elem_of_cons in Hn1, Hn2.
  destruct Hn1 as (Ha1 & Ha2 & Ha3 & Ha4 & _).
  destruct Hn2 as (Hb1 & Hb2 & Hb3 & Hb4 & _).
  apply String.eqb_neq in Ha1, Ha2, Ha3, Ha4, Hb1, Hb2, Hb3, Hb4.
  split.
  - unfold handle_powermgmt_event_with_deferred_wait. rewrite Hres1. simpl.
    rewrite Ha1, Ha2, Ha3, Ha4. reflexivity.
  - unfold check_powermgmt_status, poll_call. rewrite Hres2. simpl.
    rewrite Hb1, Hb2, Hb3, Hb4. reflexivity.
Qed.

Lemma unknown_action_raises_witness :
  handle_powermgmt_event_with_deferred_wait
    (MoreSamples.handle_env Samples.vm1 "running" RESOURCE_TAGVAL_START)
    (MoreSamples.power_action Samples.vm1 "restart" [])
  = Raise AssertionError
  ∧ check_powermgmt_status (Samples.poll_env "succeeded" true)
      (MoreSamples.check Samples.vm1 "restart" RESOURCE_TAGVAL_START [] 0)
    = Raise ValueError.
Proof.
  apply (unknown_action_raises
           (MoreSamples.handle_env Samples.vm1 "running" RESOURCE_TAGVAL_START)
           (Samples.poll_env "succeeded" true)
           (MoreSamples.power_action Samples.vm1 "restart" [])
           (MoreSamples.check Samples.vm1 "restart" RESOURCE_TAGVAL_START [] 0)
           VMManager "rg1" VMManager "rg1");
    [ vm_compute; reflexivity | vm_compute; reflexivity | | ];
    unfold POLL_ACTIONS; rewrite !not_elem_of_cons;
    repeat split; first [discriminate | apply not_elem_of_nil].
Defined.

(** ** Resources in a state between running and stopped *)

(** No kind of resource is at once in a stoppable and in a startable
    state. *)
Lemma stoppable_not_startable m r :
  in_stoppable_state m r = true → in_startable_state m r = false.
Proof.
  unfold in_stoppable_state, in_startable_state.
  destruct m; try (intros ->; reflexivity).
  rewrite str_in_spec, str_in_false, !list_elem_of_singleton.
  intros ->. discriminate.
Qed.

(** X12.  A PostgreSQL server whose state is neither "ready" nor "stopped"
    (it is starting, stopping, updating, ...) is left alone by a scheduled
    start and by a scheduled stop: no call is issued, no tag is written
    and nothing is put on the queue.  For the three other kinds of
    resource one of the two actions always applies. *)
Theorem pgsql_between_states_is_left_alone env event m group :
  resolve (pa_id event) (pa_sub_type event) = Ok (m, group) →
  pa_action event ∈ [RESOURCE_ACTION_START; RESOURCE_ACTION_STOP] →
  (m = PostgreSQLManager →
   casefold (power_state (he_resource env)) ∉ ["ready"; "stopped"] →
   ∃ effects,
     handle_powermgmt_event_with_deferred_wait env event = Ok effects
     ∧ power_calls effects = [] ∧ tags_written effects = []
     ∧ enqueued_checks effects = [])
  ∧ (m ≠ PostgreSQLManager →
     in_startable_state m (he_resource env)
     = negb (in_stoppable_state m (he_resource env))).
Proof.
  intros Hres Hact. split.
  - intros -> Hstate.
    assert (Hstoppable : in_stoppable_state PostgreSQLManager (he_resource env)
                         = false).
    { unfold in_stoppable_state. apply str_in_false.
      rewrite list_elem_of_singleton. intros Heq. apply Hstate.
      rewrite Heq. apply list_elem_of_In. simpl. auto. }
    assert (Hstartable : in_startable_state PostgreSQLManager (he_resource env)
                         = false).
    { unfold in_startable_state. apply str_in_false.
      rewrite list_elem_of_singleton. intros Heq. apply Hstate.
      rewrite Heq. apply list_elem_of_In. simpl. auto. }
    unfold handle_powermgmt_event_with_deferred_wait. rewrite Hres. simpl.
    apply list_elem_of_In in Hact. simpl in Hact.
    destruct Hact as [<- | [<- | []]]; simpl;
      rewrite ?Hstoppable, ?Hstartable.
    + eexists. split; [reflexivity |]. auto.
    + destruct (pa_alert_ids event); eexists; (split; [reflexivity |]); auto.
  - intros Hm. unfold in_startable_state, in_stoppable_state.
    destruct m; try reflexivity. by elim Hm.
Qed.

(** A server that is still starting, and a scheduled stop. *)
Lemma pgsql_between_states_is_left_alone_witness :
  ∃ effects,
    handle_powermgmt_event_with_deferred_wait
      (MoreSamples.handle_env MoreSamples.pg1 "starting" RESOURCE_TAGVAL_START)
      (MoreSamples.power_action MoreSamples.pg1 RESOURCE_ACTION_STOP [])
    = Ok effects
    ∧ power_calls effects = [] ∧ tags_written effects = []
    ∧ enqueued_checks effects = [].
Proof.
  apply (proj1 (pgsql_between_states_is_left_alone
                  (MoreSamples.handle_env MoreSamples.pg1 "starting"
                     RESOURCE_TAGVAL_START)
                  (MoreSamples.power_action MoreSamples.pg1
                     RESOURCE_ACTION_STOP [])
                  PostgreSQLManager "rg1"
                  ltac:(vm_compute; reflexivity)
                  ltac:(apply list_elem_of_In; vm_compute; auto))
               eq_refl).
  intros Hin. apply list_elem_of_In in Hin. vm_compute in Hin.
  destruct Hin as [Hin | [Hin | []]]; discriminate Hin.
Defined.

(** ** The power state of a virtual machine *)

(** X13.  [get_power_state] takes the first status code that starts with
    "powerstate", whatever its case, and drops "powerstate/" from it.  A
    machine whose instance view holds no such code gets the power state
    "unknown"; it counts as not running, so a scheduled start applies to it
    and a scheduled stop does not. *)
Theorem vm_power_state_from_instance_view id tags pre :
  Forall (fun code => startswith (casefold code) "powerstate" = false) pre →
  (∀ code rest,
     startswith (casefold code) "powerstate" = true →
     get_power_state (pre ++ code :: rest)
     = Some (replace "powerstate/" EmptyString (casefold code)))
  ∧ get_power_state pre = None
  ∧ power_state (vm_get id tags pre) = "unknown"
  ∧ in_startable_state VMManager (vm_get id tags pre) = true
  ∧ in_stoppable_state VMManager (vm_get id tags pre) = false.
Proof.
  intros Hpre.
  assert (Hnone : get_power_state pre = None).
  { induction Hpre as [|code pre Hcode _ IH]; [reflexivity |].
    simpl. rewrite Hcode. exact IH. }
  split; [| split; [exact Hnone |]].
  - intros code rest Hcode.
    induction Hpre as [|code' pre Hcode' _ IH]; simpl.
    + rewrite Hcode. reflexivity.
    + rewrite Hcode'. apply IH. simpl in Hnone. rewrite Hcode' in Hnone.
      exact Hnone.
  - unfold vm_get, in_startable_state, in_stoppable_state, is_running.
    simpl. rewrite Hnone. repeat split; reflexivity.
Qed.

(** An instance view with the provisioning state only, and one with the
    power state after it. *)
Lemma vm_power_state_from_instance_view_witness :
  power_state (vm_get Samples.vm1 ∅ ["ProvisioningState/succeeded"])
  = "unknown"
  ∧ get_power_state ["ProvisioningState/succeeded"; "PowerState/Running"]
    = Some "running".
Proof.
  destruct (vm_power_state_from_instance_view Samples.vm1 ∅
              ["ProvisioningState/succeeded"]
              ltac:(repeat constructor))
    as (Hfirst & _ & Hunknown & _).
  split; [exact Hunknown |].
  exact (Hfirst "PowerState/Running" [] eq_refl).
Defined.

(** ** The parts of a resource id *)

Lemma last_of_nine {A} (l : list A) d x :
  length l = 9%nat → l !! 8%nat = Some x → List.last l d = x.
Proof.
  intros Hlen Hx.
  do 9 (destruct l as [|? l]; [discriminate Hlen |]).
  destruct l; [| discriminate Hlen].
  simpl in Hx. injection Hx as <-. reflexivity.
Qed.

(** X14.  [decode_resource_id] raises [IndexError] for an id of fewer than
    nine segments, and returns otherwise.  Its entries ["sub_id"] and
    ["resource_group"] are what [get_sub_id] and [get_resource_group] read
    from the id; its entry ["name"] is segment 8, which is the name that
    [get_name] reads exactly for an id of nine segments. *)
Theorem decode_resource_id_fields resource_id :
  let segments := split "/" resource_id in
  ((length segments < 9)%nat →
   decode_resource_id resource_id = Raise IndexError)
  ∧ ((9 ≤ length segments)%nat →
     ∃ details sub_id group name,
       decode_resource_id resource_id = Ok details
       ∧ get_sub_id resource_id = Ok sub_id
       ∧ details !! "sub_id" = Some sub_id
       ∧ get_resource_group resource_id = Ok group
       ∧ details !! "resource_group" = Some group
       ∧ segments !! 8%nat = Some name
       ∧ details !! "name" = Some name
       ∧ (length segments = 9%nat → get_name resource_id = name)).
Proof.
  intros segments. subst segments. split.
  - intros Hlen. unfold decode_resource_id, index.
    destruct (split "/" resource_id !! 2%nat) eqn:H2; [| reflexivity].
    destruct (split "/" resource_id !! 4%nat) eqn:H4; [| reflexivity].
    destruct (split "/" resource_id !! 8%nat) eqn:H8; [| reflexivity].
    apply lookup_lt_Some in H8. lia.
  - intros Hlen. unfold decode_resource_id, get_sub_id, get_resource_group.
    destruct (index_lt (split "/" resource_id) 2 ltac:(lia)) as (s & _ & ->).
    destruct (index_lt (split "/" resource_id) 4 ltac:(lia)) as (g & _ & ->).
    destruct (index_lt (split "/" resource_id) 8 ltac:(lia))
      as (n & Hn & ->).
    simpl. eexists _, s, g, n.
    split; [reflexivity |]. split; [reflexivity |].
    split; [by rewrite lookup_insert_eq |]. split; [reflexivity |].
    split.
    { rewrite lookup_insert_ne by discriminate.
      by rewrite lookup_insert_eq. }
    split; [exact Hn |]. split.
    { do 3 (rewrite lookup_insert_ne by discriminate).
      by rewrite lookup_insert_eq. }
    intros Hnine. unfold get_name. by apply last_of_nine.
Qed.

Lemma decode_resource_id_fields_witness :
  decode_resource_id "/subscriptions/s1/resourceGroups/rg1"
  = Raise IndexError
  ∧ get_name Samples.vm1 = "vm1".
Proof.
  split.
  - apply (proj1 (decode_resource_id_fields
                    "/subscriptions/s1/resourceGroups/rg1")).
    vm_compute. lia.
  - destruct (proj2 (decode_resource_id_fields Samples.vm1)
                ltac:(vm_compute; lia))
      as (details & sub_id & group & name & _ & _ & _ & _ & _ & Hname & _
          & Hlast).
    rewrite (Hlast eq_refl). vm_compute in Hname. by injection Hname as <-.
Defined.

(** ** Alerts whose scopes do not cover the resource *)

Lemma filter_sublist {A} (f : A → bool) (l : list A) :
  sublist (List.filter f l) l.
Proof.
  induction l as [|x l IH]; simpl; [constructor |].
  destruct (f x); by constructor.
Qed.

(** X15.  When [find_matching_alert_ids] returns, the ids it returns are
    ids of the given alerts, in the order of the alerts and without
    repetition of an alert.  An alert with no scopes, or none of whose
    scopes is a prefix of the folded resource id, is skipped before its
    condition is looked at: the result is that of the alerts that remain,
    also when the condition is one that cannot be evaluated. *)
Theorem find_matching_alert_ids_skips_other_scopes
    rid rt alert rest scopes :
  dict_get "scopes" (rgi_properties alert) = None ∧ scopes = []
  ∨ dict_get "scopes" (rgi_properties alert) = Some (JList (JStr <$> scopes)) →
  Forall (fun scope => startswith (casefold rid) scope = false) scopes →
  find_matching_alert_ids rid rt (alert :: rest)
  = find_matching_alert_ids rid rt rest
  ∧ ∀ ids, find_matching_alert_ids rid rt rest = Ok ids →
           sublist ids (rgi_id <$> rest).
Proof.
  intros Hscopes Hnone.
  assert (Hsm : scope_matches rid alert = Ok false).
  { destruct Hscopes as [[Hs ->] | Hs].
    - unfold scope_matches. rewrite Hs. reflexivity.
    - rewrite (scope_matches_strings _ _ _ Hs). f_equal. clear Hs.
      induction Hnone as [|scope scopes Hscope _ IH]; [reflexivity |].
      simpl. rewrite Hscope. exact IH. }
  split.
  - simpl. rewrite Hsm. simpl.
    destruct (find_matching_alert_ids rid rt rest); reflexivity.
  - intros ids Hids. apply find_matching_alert_ids_Ok in Hids as ->.
    apply fmap_sublist, filter_sublist.
Qed.

(** An alert on another subscription with a number for a condition. *)
Lemma find_matching_alert_ids_skips_other_scopes_witness :
  find_matching_alert_ids Samples.vm1
    (Some "microsoft.compute/virtualmachines")
    [ Samples.alert "alert1"
        [("scopes", JList [JStr "/subscriptions/s2"]); ("condition", JNum 1)] ]
  = Ok [].
Proof.
  exact (proj1 (find_matching_alert_ids_skips_other_scopes Samples.vm1
                  (Some "microsoft.compute/virtualmachines")
                  (Samples.alert "alert1"
                     [("scopes", JList [JStr "/subscriptions/s2"]);
                      ("condition", JNum 1)])
                  [] ["/subscriptions/s2"]
                  (or_intror eq_refl)
                  ltac:(repeat constructor))).
Defined.

(** ** Leaves of an alert condition *)

(** X16.  A leaf [{"field": f, "equals": e}] with non-empty texts compares
    the value of the resource with [e] without regard to case when [f] is
    exactly [resourceGroup], [resourceId] or [resourceType]; for any other
    field name, also one of these three in another case, the leaf is
    false and is not reported as unparsable. *)
Theorem leaf_condition_by_field field equals criteria :
  field ≠ EmptyString → equals ≠ EmptyString →
  let leaf := JDict [("field", JStr field); ("equals", JStr equals)] in
  (field ∉ ["resourceGroup"; "resourceId"; "resourceType"] →
   evaluate_condition leaf criteria = Ok false)
  ∧ (field = "resourceGroup" →
     evaluate_condition leaf criteria
     = Ok (criteria_equals (resource_group criteria) (casefold equals)))
  ∧ (field = "resourceId" →
     evaluate_condition leaf criteria
     = Ok (criteria_equals (resource_id criteria) (casefold equals)))
  ∧ (field = "resourceType" →
     evaluate_condition leaf criteria
     = Ok (criteria_equals (resource_type criteria) (casefold equals))).
Proof.
  intros Hf He leaf. subst leaf.
  assert (Heval : evaluate_condition
                    (JDict [("field", JStr field); ("equals", JStr equals)])
                    criteria
                  = eval_dict [("field", JStr field); ("equals", JStr equals)]
                      criteria) by reflexivity.
  rewrite Heval. unfold eval_dict. simpl.
  apply String.eqb_neq in Hf, He. rewrite Hf, He. simpl.
  repeat split.
  - intros Hnot. rewrite !not_elem_of_cons in Hnot.
    destruct Hnot as (H1 & H2 & H3 & _).
    destruct (String.eqb_spec field "resourceGroup"); [contradiction |].
    destruct (String.eqb_spec field "resourceId"); [contradiction |].
    destruct (String.eqb_spec field "resourceType"); [contradiction |].
    repeat match goal with
           | |- context [match ?s with EmptyString => _ | String _ _ => _ end] =>
               destruct s
           | |- context [match ?a with Ascii _ _ _ _ _ _ _ _ => _ end] =>
               destruct a
           | |- context [if ?b then _ else _] => destruct b
           end; try reflexivity; congruence.
  - intros ->. reflexivity.
  - intros ->. reflexivity.
  - intros ->. reflexivity.
Qed.

(** The field name written in lower case. *)
Lemma leaf_condition_by_field_witness :
  evaluate_condition
    (JDict [("field", JStr "resourcegroup"); ("equals", JStr "rg1")])
    (Build_ConditionEvalCriteria (Some "rg1") None (Some Samples.vm1))
  = Ok false.
Proof.
  apply (proj1 (leaf_condition_by_field "resourcegroup" "rg1"
                  (Build_ConditionEvalCriteria (Some "rg1") None
                     (Some Samples.vm1))
                  ltac:(discriminate) ltac:(discriminate))).
  rewrite !not_elem_of_cons.
  repeat split; first [discriminate | apply not_elem_of_nil].
Defined.

(** ** The scan of one tagged resource *)

Section scan_properties.

Context `{TimeLibs}.

Variable env : ScanEnv.

(** One of the two blocks of the scan sends nothing, or one power action,
    and the latter only for a resource in the state that the block asks
    for and for a cron that is there. *)
Lemma scan_event_inv res sub_type ready cron override action now created
    effects :
  scan_event env res sub_type ready cron override action now created
  = Ok effects →
  effects = []
  ∨ (ready = true ∧ truthy_str cron = true
     ∧ ∃ ids, effects = [EnqueuePowerAction
                           (create_power_action (res_id res) action ids
                                                sub_type created)]).
Proof.
  unfold scan_event.
  destruct (truthy_str cron), ready; simpl;
    try (intros Heq; injection Heq as <-; by left).
  destruct (should_process_cron_event _ _ _ _ _) as [[[|] dbg]|e]; simpl;
    try discriminate; try (intros Heq; injection Heq as <-; by left).
  destruct (find_matching_alert_ids _ _ _) as [ids|e]; simpl;
    [| discriminate].
  intros Heq. injection Heq as <-. right. eauto.
Qed.

Lemma scan_event_no_cron res sub_type ready override action now created :
  scan_event env res sub_type ready None override action now created = Ok [].
Proof. reflexivity. Qed.

Lemma grid_to_cron_None current_day : grid_to_cron None current_day = Ok None.
Proof. reflexivity. Qed.

(** X17.  One pass over a resource writes one status tag and sends
    nothing, or writes nothing and sends at most one power action: a stop
    for a resource in a stoppable state or a start for a resource in a
    startable state, with the id of the resource and the sub type of its
    manager. *)
Theorem scan_sends_at_most_one_action t effects :
  scan_resource env t = Ok effects →
  (∃ msg, effects = [MgrAddTags (res_id (tg_resource t)) msg])
  ∨ effects = []
  ∨ (∃ pa, effects = [EnqueuePowerAction pa]
           ∧ pa_id pa = res_id (tg_resource t)
           ∧ pa_sub_type pa = tg_sub_type t
           ∧ ((pa_action pa = RESOURCE_ACTION_STOP
               ∧ in_stoppable_state (tg_manager t) (tg_resource t) = true)
              ∨ (pa_action pa = RESOURCE_ACTION_START
                 ∧ in_startable_state (tg_manager t) (tg_resource t) = true))).
Proof.
  unfold scan_resource.
  destruct (tag_schedule env (tg_resource t)) as [msg | [power_off power_on]].
  { intros Heq. injection Heq as <-. left. eauto. }
  destruct (_ || _); [intros Heq; injection Heq as <-; auto |].
  destruct (grid_to_cron power_off _) as [cron_off|e]; simpl;
    [| discriminate].
  destruct (grid_to_cron power_on _) as [cron_on|e]; simpl; [| discriminate].
  destruct (scan_event _ _ _ _ cron_off _ _ _ _) as [stop|e] eqn:Hstop; simpl;
    [| discriminate].
  destruct (scan_event _ _ _ _ cron_on _ _ _ _) as [start|e] eqn:Hstart; simpl;
    [| discriminate].
  intros Heq. injection Heq as <-.
  apply scan_event_inv in Hstop, Hstart.
  destruct Hstop as [-> | (Hstoppable & _ & ids & ->)];
    destruct Hstart as [-> | (Hstartable & _ & ids' & ->)]; simpl.
  - auto.
  - right. right. eexists. split; [reflexivity |]. simpl. auto.
  - right. right. eexists. split; [reflexivity |]. simpl. auto.
  - apply stoppable_not_startable in Hstoppable. congruence.
Qed.

(** X18.  A resource that carries the exemption tag gets no power action,
    and its crons are not even read: the pass returns, with the status tag
    for an invalid schedule tag as its only possible effect. *)
Theorem scan_of_exempt_resource t :
  truthy_str (tags (tg_resource t) !! RESOURCE_TAGKEY_POWERMGMT_EXEMPT)
  = true →
  ∃ effects,
    scan_resource env t = Ok effects
    ∧ enqueued_actions effects = []
    ∧ (effects = []
       ∨ ∃ msg, tag_schedule env (tg_resource t) = inl msg
                ∧ effects = [MgrAddTags (res_id (tg_resource t)) msg]).
Proof.
  intros Hexempt. unfold scan_resource.
  destruct (tag_schedule env (tg_resource t)) as [msg | [power_off power_on]].
  - eexists. split; [reflexivity |]. split; [reflexivity |]. right. eauto.
  - rewrite Hexempt. simpl. eexists. split; [reflexivity |]. auto.
Qed.

(** What the two sides of a schedule decide: without a power-on value only
    stops are sent, without a power-off value only starts. *)
Lemma scan_resource_sides t power_off power_on effects :
  tag_schedule env (tg_resource t) = inr (power_off, power_on) →
  scan_resource env t = Ok effects →
  (power_on = None →
   ∀ pa, pa ∈ enqueued_actions effects → pa_action pa = RESOURCE_ACTION_STOP)
  ∧ (power_off = None →
     ∀ pa, pa ∈ enqueued_actions effects →
           pa_action pa = RESOURCE_ACTION_START).
Proof.
  intros Htags. unfold scan_resource. rewrite Htags.
  destruct (_ || _).
  { intros Heq. injection Heq as <-.
    split; intros _ pa Hpa; by apply elem_of_nil in Hpa. }
  destruct (grid_to_cron power_off _) as [cron_off|e] eqn:Hoff; simpl;
    [| discriminate].
  destruct (grid_to_cron power_on _) as [cron_on|e] eqn:Hon; simpl;
    [| discriminate].
  destruct (scan_event _ _ _ _ cron_off _ _ _ _) as [stop|e] eqn:Hstop; simpl;
    [| discriminate].
  destruct (scan_event _ _ _ _ cron_on _ _ _ _) as [start|e] eqn:Hstart; simpl;
    [| discriminate].
  intros Heq. injection Heq as <-.
  apply scan_event_inv in Hstop, Hstart.
  split; intros ->.
  - rewrite grid_to_cron_None in Hon. injection Hon as <-.
    destruct Hstart as [-> | (_ & Hc & _)]; [| discriminate Hc].
    rewrite app_nil_r.
    destruct Hstop as [-> | (_ & _ & ids & ->)]; intros pa Hpa; simpl in Hpa.
    + by apply elem_of_nil in Hpa.
    + apply list_elem_of_singleton in Hpa as ->. reflexivity.
  - rewrite grid_to_cron_None in Hoff. injection Hoff as <-.
    destruct Hstop as [-> | (_ & Hc & _)]; [| discriminate Hc].
    destruct Hstart as [-> | (_ & _ & ids & ->)]; intros pa Hpa; simpl in Hpa.
    + by apply elem_of_nil in Hpa.
    + apply list_elem_of_singleton in Hpa as ->. reflexivity.
Qed.

(** The entries of [POWER_SCHEDULE_CONFIGS], by name. *)
Lemma power_schedule_configs_lookup delay name schedule :
  POWER_SCHEDULE_CONFIGS delay !! name = Some schedule →
  (name = "businesshours" ∧ cfg_power_off schedule ≠ None
   ∧ cfg_ignore_public_holidays schedule = true)
  ∨ (name = "businesshoursextended"
     ∧ cfg_ignore_public_holidays schedule = false)
  ∨ (name ∈ ["alwaysoff"; "offatmidnight"] ∧ cfg_power_on schedule = None
     ∧ cfg_ignore_public_holidays schedule = false)
  ∨ (name = "alwayson" ∧ cfg_power_off schedule = None
     ∧ cfg_ignore_public_holidays schedule = false)
  ∨ (name = "none" ∧ cfg_power_on schedule = None
     ∧ cfg_power_off schedule = None
     ∧ cfg_ignore_public_holidays schedule = false).
Proof.
  unfold POWER_SCHEDULE_CONFIGS. simpl.
  repeat (rewrite lookup_insert_Some; intros [[<- <-] | [_ Hrest]];
          [ simpl; first [ left; repeat split; solve [eauto | discriminate]
                         | right; left; repeat split; solve [eauto]
                         | right; right; left; repeat split;
                           solve [eauto | apply list_elem_of_In; simpl; auto]
                         | right; right; right; left; repeat split;
                           solve [eauto]
                         | right; right; right; right; repeat split;
                           solve [eauto] ]
          | revert Hrest ]).
  rewrite lookup_empty. discriminate.
Qed.

(** X19.  A named schedule decides which actions a pass can send:
    [alwaysoff] and [offatmidnight] only stops, also [businesshours] on a
    public holiday; [alwayson] only starts; [none] nothing at all.  The
    name is looked up without regard to case. *)
Theorem scan_of_named_schedule t value effects :
  tags (tg_resource t) !! RESOURCE_TAGKEY_SCHEDULE = Some value →
  scan_resource env t = Ok effects →
  (casefold value ∈ ["alwaysoff"; "offatmidnight"]
   ∨ (casefold value = "businesshours" ∧ se_is_holiday env = true) →
   ∀ pa, pa ∈ enqueued_actions effects → pa_action pa = RESOURCE_ACTION_STOP)
  ∧ (casefold value = "alwayson" →
     ∀ pa, pa ∈ enqueued_actions effects →
           pa_action pa = RESOURCE_ACTION_START)
  ∧ (casefold value = "none" → effects = []).
Proof.
  intros Hvalue Hscan.
  destruct (tag_schedule env (tg_resource t)) as [msg | [power_off power_on]]
    eqn:Htags.
  { (* the name is not in the table *)
    unfold tag_schedule in Htags. rewrite Hvalue in Htags.
    destruct (POWER_SCHEDULE_CONFIGS _ !! casefold value) eqn:Hlookup;
      [discriminate Htags |].
    assert (Hno : ∀ name,
              name ∈ ["alwaysoff"; "offatmidnight"; "businesshours";
                      "alwayson"; "none"] →
              casefold value ≠ name).
    { intros name Hname Heq. rewrite Heq in Hlookup.
      apply list_elem_of_In in Hname. simpl in Hname.
      destruct Hname as [<- | [<- | [<- | [<- | [<- | []]]]]];
        vm_compute in Hlookup; discriminate Hlookup. }
    repeat split.
    - intros [Hin | [Heq _]].
      + exfalso. apply list_elem_of_In in Hin. simpl in Hin.
        destruct Hin as [Hin | [Hin | []]]; symmetry in Hin;
          revert Hin; apply Hno; apply list_elem_of_In; simpl; auto.
      + exfalso. revert Heq. apply Hno. apply list_elem_of_In. simpl. auto.
    - intros Heq. exfalso. revert Heq. apply Hno.
      apply list_elem_of_In. simpl. auto.
    - intros Heq. exfalso. revert Heq. apply Hno.
      apply list_elem_of_In. simpl. auto 10. }
  pose proof (scan_resource_sides t power_off power_on effects Htags Hscan)
    as [Hstops Hstarts].
  pose proof Htags as Htags'.
  unfold tag_schedule in Htags. rewrite Hvalue in Htags.
  destruct (POWER_SCHEDULE_CONFIGS _ !! casefold value) as [schedule|]
    eqn:Hlookup; [| discriminate Htags].
  injection Htags as <- <-.
  apply power_schedule_configs_lookup in Hlookup.
  repeat split.
  - intros Hcase. apply Hstops.
    destruct Hlookup
      as [(Hn & _ & Hh) | [(Hn & _) | [(Hn & Hon & _) | [(Hn & _) | (Hn & Hon & _)]]]].
    + destruct Hcase as [Hin | [_ Hholiday]].
      * exfalso. rewrite Hn in Hin. apply list_elem_of_In in Hin.
        simpl in Hin. destruct Hin as [Hin | [Hin | []]]; discriminate Hin.
      * rewrite Hh, Hholiday. reflexivity.
    + exfalso. rewrite Hn in Hcase. destruct Hcase as [Hin | [Heq _]].
      * apply list_elem_of_In in Hin. simpl in Hin.
        destruct Hin as [Hin | [Hin | []]]; discriminate Hin.
      * discriminate Heq.
    + rewrite Hon. by destruct (_ && _).
    + exfalso. rewrite Hn in Hcase. destruct Hcase as [Hin | [Heq _]].
      * apply list_elem_of_In in Hin. simpl in Hin.
        destruct Hin as [Hin | [Hin | []]]; discriminate Hin.
      * discriminate Heq.
    + rewrite Hon. by destruct (_ && _).
  - intros Hcase. apply Hstarts. rewrite Hcase in Hlookup.
    destruct Hlookup
      as [(Hn & _) | [(Hn & _) | [(Hn & _) | [(_ & Hoff & _) | (Hn & _)]]]];
      try discriminate Hn; [| exact Hoff].
    apply list_elem_of_In in Hn. simpl in Hn.
    destruct Hn as [Hn | [Hn | []]]; discriminate Hn.
  - intros Hcase. rewrite Hcase in Hlookup.
    destruct Hlookup
      as [(Hn & _) | [(Hn & _) | [(Hn & _) | [(Hn & _) | (_ & Hon & Hoff & Hh)]]]];
      try discriminate Hn.
    { apply list_elem_of_In in Hn. simpl in Hn.
      destruct Hn as [Hn | [Hn | []]]; discriminate Hn. }
    unfold scan_resource in Hscan. rewrite Htags', Hon, Hoff, Hh in Hscan.
    simpl in Hscan. rewrite orb_true_r in Hscan. by injection Hscan as <-.
Qed.

End scan_properties.

Section scan_grids.

Context `{TimeLibs}.

Variable env : ScanEnv.

(** X20.  A resource without a named schedule whose [PowerOff] tag is a
    weekly grid written with commas, and that has no [PowerOn] tag: the
    pass reads the slot of the weekday.  For [-] or [*] it sends nothing,
    whatever the state of the resource; for a time it takes the stop
    decision on the cron of that time and weekday, with no opposing
    event. *)
Theorem scan_reads_slot_of_the_day t week s :
  let res := tg_resource t in
  let clock := se_clock env in
  tags res !! RESOURCE_TAGKEY_SCHEDULE = None →
  tags res !! RESOURCE_TAGKEY_POWEROFF = Some (render_grid week) →
  tags res !! RESOURCE_TAGKEY_POWERON = None →
  truthy_str (tags res !! RESOURCE_TAGKEY_POWERMGMT_EXEMPT) = false →
  length week = 7%nat → Forall slot_wf week →
  week !! day_off clock = Some s →
  scan_resource env t
  = scan_event env res (tg_sub_type t)
      (in_stoppable_state (tg_manager t) res)
      (slot_cron s (day_off clock)) None RESOURCE_ACTION_STOP
      (now_off clock) (created_off clock)
  ∧ (slot_cron s (day_off clock) = None → scan_resource env t = Ok []).
Proof.
  intros res clock Hsched Hoff Hon Hexempt Hlen Hwf Hs.
  destruct (convert_comma_grid week (day_off clock) s Hlen Hwf Hs)
    as [Hvalid Hconvert].
  assert (Htruthy : truthy_str (Some (render_grid week)) = true).
  { simpl. destruct (String.eqb_spec (render_grid week) EmptyString) as [He|];
      [| reflexivity].
    rewrite He in Hvalid. vm_compute in Hvalid. discriminate Hvalid. }
  assert (Hscan : scan_resource env t
                  = scan_event env res (tg_sub_type t)
                      (in_stoppable_state (tg_manager t) res)
                      (slot_cron s (day_off clock)) None RESOURCE_ACTION_STOP
                      (now_off clock) (created_off clock)).
  { unfold scan_resource, tag_schedule. fold res.
    rewrite Hsched, Hoff, Hon, Htruthy.
    unfold is_valid_powertag_value. simpl default.
    rewrite Hvalid, orb_true_r. simpl negb. simpl andb. cbv iota.
    rewrite Hexempt. simpl orb. cbv iota.
    unfold grid_to_cron. rewrite Htruthy. simpl default.
    rewrite Hvalid. simpl andb. cbv iota. fold clock. rewrite Hconvert.
    simpl.
    destruct (scan_event _ _ _ _ _ _ _ _ _) as [stop|e]; simpl;
      [by rewrite app_nil_r | reflexivity]. }
  split; [exact Hscan |].
  intros Hnone. rewrite Hscan, Hnone. reflexivity.
Qed.

End scan_grids.

(** A running machine at 18:04 with a power-off time of 18:00 and a
    power-on time of 08:00. *)
Lemma scan_sends_at_most_one_action_witness :
  ∃ pa,
    @scan_resource TimeDouble.libs
      (MoreSamples.scan_env false MoreSamples.monday_1804 MoreSamples.monday_1800)
      (MoreSamples.tagged_vm "running"
         [("PowerOff", "0 18 * * *"); ("PowerOn", "0 8 * * *")])
    = Ok [EnqueuePowerAction pa]
    ∧ pa_action pa = RESOURCE_ACTION_STOP.
Proof.
  destruct (@scan_resource TimeDouble.libs
              (MoreSamples.scan_env false MoreSamples.monday_1804 MoreSamples.monday_1800)
              (MoreSamples.tagged_vm "running"
                 [("PowerOff", "0 18 * * *"); ("PowerOn", "0 8 * * *")]))
    as [effects|e] eqn:Hscan; [| vm_compute in Hscan; discriminate].
  destruct (@scan_sends_at_most_one_action TimeDouble.libs _ _ effects Hscan)
    as [[msg ->] | [-> | (pa & -> & _ & _ & Hact)]].
  - vm_compute in Hscan. discriminate.
  - vm_compute in Hscan. discriminate.
  - exists pa. split; [reflexivity |].
    destruct Hact as [[Ha _] | [_ Hs]]; [exact Ha |].
    vm_compute in Hs. discriminate.
Defined.

(** An exempt machine whose power-off tag is not a cron. *)
Lemma scan_of_exempt_resource_witness :
  ∃ msg,
    @scan_resource TimeDouble.libs
      (MoreSamples.scan_env false MoreSamples.monday_1804 MoreSamples.monday_1800)
      (MoreSamples.tagged_vm "running"
         [("PowerOff", "at six"); ("_POWERMGMT_EXEMPT_", "true")])
    = Ok [MgrAddTags Samples.vm1 msg].
Proof.
  destruct (@scan_of_exempt_resource TimeDouble.libs
              (MoreSamples.scan_env false MoreSamples.monday_1804 MoreSamples.monday_1800)
              (MoreSamples.tagged_vm "running"
                 [("PowerOff", "at six"); ("_POWERMGMT_EXEMPT_", "true")])
              ltac:(vm_compute; reflexivity))
    as (effects & Hscan & _ & [-> | (msg & _ & ->)]).
  - vm_compute in Hscan. discriminate.
  - exists msg. exact Hscan.
Defined.

(** A running machine with the schedule [OffAtMidnight], four minutes
    after midnight. *)
Lemma scan_of_named_schedule_witness :
  ∃ effects pa,
    @scan_resource TimeDouble.libs
      (MoreSamples.scan_env false MoreSamples.monday_0004 MoreSamples.monday_0000)
      (MoreSamples.tagged_vm "running" [("Schedule", "OffAtMidnight")])
    = Ok effects
    ∧ enqueued_actions effects = [pa]
    ∧ pa_action pa = RESOURCE_ACTION_STOP.
Proof.
  destruct (@scan_resource TimeDouble.libs
              (MoreSamples.scan_env false MoreSamples.monday_0004 MoreSamples.monday_0000)
              (MoreSamples.tagged_vm "running" [("Schedule", "OffAtMidnight")]))
    as [effects|e] eqn:Hscan; [| vm_compute in Hscan; discriminate].
  destruct (@scan_of_named_schedule TimeDouble.libs
              (MoreSamples.scan_env false MoreSamples.monday_0004 MoreSamples.monday_0000)
              (MoreSamples.tagged_vm "running" [("Schedule", "OffAtMidnight")])
              "OffAtMidnight" effects ltac:(vm_compute; reflexivity) Hscan)
    as (Hstops & _ & _).
  destruct (enqueued_actions effects) as [|pa [|pa' rest]] eqn:Hactions.
  - vm_compute in Hscan. injection Hscan as <-. discriminate Hactions.
  - exists effects, pa. split; [reflexivity |]. split; [exact Hactions |].
    apply Hstops.
    + left. apply list_elem_of_In. vm_compute. auto.
    + apply list_elem_of_In. simpl. auto.
  - vm_compute in Hscan. injection Hscan as <-. discriminate Hactions.
Defined.

(** A grid with no power-off on Mondays. *)
Lemma scan_reads_slot_of_the_day_witness :
  @scan_resource TimeDouble.libs
    (MoreSamples.scan_env false MoreSamples.monday_1804 MoreSamples.monday_1800)
    (MoreSamples.tagged_vm "running" [("PowerOff", "-,18,18,18,18:30,*,*")])
  = Ok [].
Proof.
  apply (proj2 (@scan_reads_slot_of_the_day TimeDouble.libs
                  (MoreSamples.scan_env false MoreSamples.monday_1804 MoreSamples.monday_1800)
                  (MoreSamples.tagged_vm "running"
                     [("PowerOff", "-,18,18,18,18:30,*,*")])
                  [ NoAction false; At 18 false None; At 18 false None;
                    At 18 false None; At 18 false (Some 30);
                    NoAction true; NoAction true ]
                  (NoAction false)
                  ltac:(vm_compute; reflexivity)
                  ltac:(vm_compute; reflexivity)
                  ltac:(vm_compute; reflexivity)
                  ltac:(vm_compute; reflexivity)
                  eq_refl
                  ltac:(repeat constructor; simpl; lia)
                  eq_refl)).
  reflexivity.
Defined.

(** ** Subscription checks *)

Section sub_checks.

Variable get_descendants : string → result (list (string * string)).
Variable get_sub : string → option Subscription.

Lemma filter_active subs :
  Forall (fun sub => is_active sub = true) (List.filter is_active subs).
Proof.
  apply Forall_forall. intros sub Hin. apply list_elem_of_In in Hin.
  by apply filter_In in Hin as [_ Hactive].
Qed.

(** The checks that are sent are those of the subscriptions returned, all
    of them active. *)
Lemma enqueue_sub_checks_active_only_aux mg_id sub_id last_check :
  let '(sent, subs) :=
    enqueue_sub_checks get_descendants get_sub mg_id sub_id last_check in
  sc_sub <$> sent = subs
  ∧ Forall (fun check => is_active (sc_sub check) = true
                         ∧ sc_last_check check = last_check) sent.
Proof.
  unfold enqueue_sub_checks.
  set (subs := List.filter is_active _). split.
  - rewrite <- list_fmap_compose. simpl. apply list_fmap_id.
  - apply Forall_fmap. subst subs.
    eapply Forall_impl; [apply filter_active |]. simpl. auto.
Qed.


(** X22.  The HTTP trigger answers 404 exactly when no check was sent, and
    200 otherwise; the checks it sends are for active subscriptions and
    carry no time of a last check. *)
Theorem trigger_function_status management_group_id subscription_id
    sent status :
  trigger_function get_descendants get_sub management_group_id
                   subscription_id = (sent, status) →
  ((status = 404%Z ∧ sent = []) ∨ (status = 200%Z ∧ sent ≠ []))
  ∧ Forall (fun check => is_active (sc_sub check) = true
                         ∧ sc_last_check check = None) sent.
Proof.
  unfold trigger_function.
  pose proof (enqueue_sub_checks_active_only_aux management_group_id
                subscription_id None) as Haux.
  destruct (enqueue_sub_checks _ _ _ _ _) as [sent' subs].
  destruct Haux as (Hsubs & Hall).
  intros Heq. injection Heq as <- <-. split; [| exact Hall].
  destruct sent' as [|check sent']; simpl in Hsubs; subst subs; simpl.
  - left. auto.
  - right. split; [reflexivity | discriminate].
Qed.


End sub_checks.


(** A subscription that exists but is disabled. *)
Lemma trigger_function_status_witness :
  trigger_function MoreSamples.get_descendants MoreSamples.get_sub None (Some "s2")
  = ([], 404%Z).
Proof.
  destruct (trigger_function MoreSamples.get_descendants MoreSamples.get_sub None (Some "s2"))
    as [sent status] eqn:Heq.
  destruct (trigger_function_status MoreSamples.get_descendants MoreSamples.get_sub None
              (Some "s2") sent status Heq) as [[[-> ->] | [_ Hne]] _].
  - reflexivity.
  - vm_compute in Heq. injection Heq as <- <-. by elim Hne.
Defined.


(** ** A poll that reports success *)

(** X24.  The status of the poller is compared in lower case.  For every
    manager and each of the four actions, a poller whose status reads
    "succeeded" in any case ends the check: "succeeded" is logged with the
    retry counter as it stands, the pending tag text is written unless it
    is empty, and the check is not put back on the queue. *)
Theorem poller_success_in_any_case
    resource status add_tags event m group :
  resolve (dc_id event) (dc_sub_type event) = Ok (m, group) →
  dc_action event ∈ POLL_ACTIONS →
  casefold status = "succeeded" →
  dc_tag_text event = Some EmptyString ∨ add_tags = true →
  ∃ effects,
    provider_check resource (PollerStatus status) add_tags event = Ok effects
    ∧ log_records effects = [("succeeded", dc_wait_retries event)]
    ∧ enqueued_checks effects = []
    ∧ tags_written effects
      = (if bool_decide (dc_tag_text event = Some EmptyString)
         then [] else [dc_tag_text event]).
Proof.
  intros Hres Hact Hstatus Htag.
  rewrite (provider_check_eq _ _ _ _ _ _ Hres).
  match goal with
  | |- context [check_powermgmt_status ?e event] => set (env := e)
  end.
  apply (check_succeeded env event m group Hres Hact); [| exact Htag].
  subst env. simpl.
  destruct (String.eqb (dc_action event) RESOURCE_ACTION_STOP
            || String.eqb (dc_action event) RESOURCE_ACTION_STOP_POST_UPDATES);
    destruct m; simpl; rewrite Hstatus; reflexivity.
Qed.

(** The start of a stopped gateway, reported as "Succeeded". *)
Lemma poller_success_in_any_case_witness :
  ∃ effects,
    provider_check
      (MoreSamples.resource MoreSamples.agw1 "stopped" RESOURCE_TAGVAL_STOP)
      (PollerStatus "Succeeded") true
      (MoreSamples.check MoreSamples.agw1 RESOURCE_ACTION_START
         RESOURCE_TAGVAL_START [] 2)
    = Ok effects
    ∧ log_records effects = [("succeeded", 2%Z)]
    ∧ tags_written effects = [Some RESOURCE_TAGVAL_START].
Proof.
  destruct (poller_success_in_any_case
              (MoreSamples.resource MoreSamples.agw1 "stopped"
                 RESOURCE_TAGVAL_STOP)
              "Succeeded" true
              (MoreSamples.check MoreSamples.agw1 RESOURCE_ACTION_START
                 RESOURCE_TAGVAL_START [] 2)
              AppGatewayManager "rg1")
    as (effects & Heff & Hlog & _ & Htags).
  - vm_compute. reflexivity.
  - apply list_elem_of_In. vm_compute. auto.
  - reflexivity.
  - right. reflexivity.
  - exists effects. split; [exact Heff |]. split; [exact Hlog |].
    exact Htags.
Defined.
